(** * SecRev: file selection, chunking, budget and report aggregation

    A shallow embedding of [secrev_cli.py] and the properties of its
    file-selection and chunking pipeline.

    Python values are modelled as follows.
    - [str] is [string]; a character is one of the code points 0..255
      (the Latin-1 range of Python's [str]), on which [lower], [strip],
      [split] and [isspace] are written out below.
    - [int] is [Z]; [len] returns a [Z].
    - [Set[str]] is [gset string]; [List[...]] is [list].
    - A [Path] below the scan root is the list of its parts relative to
      the root.
    - [print] calls are events of an output log. *)

From Stdlib Require Import ZArith Lia Ascii.
From stdpp Require Import base decidable list gmap sets strings pretty.

Set Warnings "-register-all,-clear-no-such-hyp".
Local Open Scope Z_scope.

(** ** Python string primitives *)

Module Py.

Definition len (s : string) : Z := Z.of_nat (String.length s).

(** [str.isspace] on one character of the Latin-1 range. *)
Definition isspace (c : ascii) : bool :=
  let n := nat_of_ascii c in
  ((9 <=? n) && (n <=? 13) || (28 <=? n) && (n <=? 32)
   || (n =? 133) || (n =? 160))%nat.

(** [str.lower] on one character of the Latin-1 range: A-Z and the
    accented capitals 0xC0-0xDE (without the multiplication sign 0xD7)
    move up by 32. *)
Definition lower_char (c : ascii) : ascii :=
  let n := nat_of_ascii c in
  if ((65 <=? n) && (n <=? 90)
      || (192 <=? n) && (n <=? 222) && negb (n =? 215))%nat
  then ascii_of_nat (n + 32) else c.

Fixpoint lower (s : string) : string :=
  match s with
  | EmptyString => EmptyString
  | String c s' => String (lower_char c) (lower s')
  end.

Definition is_empty (s : string) : bool :=
  match s with EmptyString => true | _ => false end.

Fixpoint lstrip_by (p : ascii -> bool) (s : string) : string :=
  match s with
  | EmptyString => EmptyString
  | String c s' => if p c then lstrip_by p s' else s
  end.

Fixpoint rstrip_by (p : ascii -> bool) (s : string) : string :=
  match s with
  | EmptyString => EmptyString
  | String c s' =>
      let r := rstrip_by p s' in
      if p c && is_empty r then EmptyString else String c r
  end.

Definition strip_by (p : ascii -> bool) (s : string) : string :=
  rstrip_by p (lstrip_by p s).

(** [s.strip()] *)
Definition strip (s : string) : string := strip_by isspace s.

(** [s.strip(chars)] *)
Definition strip_chars (chars : list ascii) (s : string) : string :=
  strip_by (fun c => bool_decide (c ∈ chars)) s.

(** Truth value of a [str]: non-empty. *)
Definition truthy (s : string) : bool := negb (is_empty s).

(** [s.split()]: maximal runs of non-space characters, in order. [cur] is
    the run being read, reversed. *)
Fixpoint split_go (cur : list ascii) (s : string) : list string :=
  let flush :=
    match cur with
    | [] => []
    | _ => [String.string_of_list_ascii (rev cur)]
    end in
  match s with
  | EmptyString => flush
  | String c s' =>
      if isspace c then flush ++ split_go [] s'
      else split_go (c :: cur) s'
  end.

Definition split (s : string) : list string := split_go [] s.

(** [s.startswith(p)] *)
Definition startswith (s p : string) : bool := String.prefix p s.

(** [sub in s] *)
Fixpoint contains (sub s : string) : bool :=
  String.prefix sub s ||
  match s with
  | EmptyString => false
  | String _ s' => contains sub s'
  end.

(** ["".join(parts)] *)
Definition join (parts : list string) : string :=
  fold_right String.append EmptyString parts.

(** [s[i:j]] for [0 <= i <= j]; the slice is cut at the end of [s]. *)
Definition slice (s : string) (i j : Z) : string :=
  String.substring (Z.to_nat i) (Z.to_nat (j - i)) s.

(** [range(start, stop, step)] for a positive [step]. *)
Fixpoint range_go (fuel : nat) (i stop step : Z) : list Z :=
  match fuel with
  | O => []
  | S fuel' =>
      if i <? stop then i :: range_go fuel' (i + step) stop step else []
  end.

Definition range (start stop step : Z) : list Z :=
  range_go (Z.to_nat (stop - start)) start stop step.

Definition is_digit (c : ascii) : bool :=
  let n := nat_of_ascii c in ((48 <=? n) && (n <=? 57))%nat.

Definition digit_val (c : ascii) : Z := Z.of_nat (nat_of_ascii c) - 48.

(** Digits of an [int] literal after the sign: digits, with single
    underscores allowed between two digits. [prev_digit] tells whether the
    previous character was a digit. *)
Fixpoint int_digits (acc : Z) (prev_digit : bool) (s : string) : option Z :=
  match s with
  | EmptyString => if prev_digit then Some acc else None
  | String c s' =>
      if is_digit c then int_digits (10 * acc + digit_val c) true s'
      else if Ascii.eqb c "_" && prev_digit then
        match s' with
        | String d _ => if is_digit d then int_digits acc false s' else None
        | EmptyString => None
        end
      else None
  end.

(** [int(s)] for a token without surrounding whitespace; [None] stands for
    [ValueError]. *)
Definition int (s : string) : option Z :=
  match s with
  | String "+" s' => int_digits 0 false s'
  | String "-" s' => Z.opp <$> int_digits 0 false s'
  | _ => int_digits 0 false s
  end.

End Py.

(** ** Chunker *)

Definition chunk_content (content : string) (chunk_size_chars : Z)
  : list string :=
  if chunk_size_chars <=? 0 then [content]
  else (fun i => Py.slice content i (i + chunk_size_chars))
         <$> Py.range 0 (Py.len content) chunk_size_chars.

(** Ceiling of [n / d] for a positive [d]. *)
Definition ceil_div (n d : Z) : Z := (n + d - 1) / d.


(** ** Configuration *)

Definition DEFAULT_RELEVANT_EXTENSIONS : gset string :=
  list_to_set
    [".py"; ".js"; ".ts"; ".java"; ".c"; ".cpp"; ".h"; ".hpp"; ".cs"; ".go";
     ".rb"; ".php"; ".html"; ".htm"; ".css"; ".scss"; ".less";
     ".json"; ".yaml"; ".yml"; ".xml"; ".ini"; ".toml"; ".env";
     ".sh"; ".bash"; ".ps1"; ".sql"; ".md"; ".txt";
     ".dockerfile"; "dockerfile"; ".tf"; ".hcl"].

Definition DEFAULT_EXCLUDED_EXTENSIONS : gset string :=
  list_to_set
    [".pyc"; ".pyo"; ".o"; ".so"; ".dll"; ".exe";
     ".log"; ".tmp"; ".bak"; ".swp"; ".ds_store";
     ".jpg"; ".jpeg"; ".png"; ".gif"; ".bmp"; ".tiff"; ".webp";
     ".mp3"; ".wav"; ".aac"; ".flac"; ".ogg";
     ".mp4"; ".mov"; ".avi"; ".mkv"; ".webm";
     ".zip"; ".tar"; ".gz"; ".rar"; ".7z";
     ".pdf"; ".doc"; ".docx"; ".xls"; ".xlsx"; ".ppt"; ".pptx"].

Definition DEFAULT_EXCLUDED_FILENAMES_PATTERNS : gset string :=
  list_to_set
    [".gitignore"; "license"; "node_modules"; "venv"; ".venv"; "dist";
     "build"; "__pycache__"; ".git"; ".svn"; ".hg";
     "package-lock.json"; "yarn.lock"; "composer.lock"; "gemfile.lock";
     "pipfile.lock"].

(** ** Normalization of extension and pattern lists *)

(** The element a token [e] contributes to the set comprehension of
    [_normalize_extensions]. *)
Definition normalize_extension (e : string) : string :=
  if Py.truthy (Py.strip e)
  then "." +:+ Py.lower (Py.strip_chars ["."%char] e)
  else EmptyString.

(** [Optional[List[str]]] is an [option]; [not extensions] holds of [None]
    and of the empty list. *)
Definition _normalize_extensions (extensions : option (list string))
  : gset string :=
  match extensions with
  | None | Some [] => ∅
  | Some es => list_to_set (normalize_extension <$> es) ∖ {[ EmptyString ]}
  end.

Definition _normalize_patterns (patterns : option (list string))
  : gset string :=
  match patterns with
  | None | Some [] => ∅
  | Some ps =>
      list_to_set
        ((fun p => Py.strip_chars ["/"%char] (Py.lower p))
           <$> List.filter (fun p => Py.truthy (Py.strip p)) ps)
  end.

(** ** Paths *)

(** A path below the scan root: its parts relative to the root, the file's
    own name last. *)
Abbreviation Path := (list string).

(** [Path.name] *)
Definition path_name (p : Path) : string := List.last p EmptyString.

(** [s.rfind(c)]; [None] stands for -1. *)
Fixpoint rfind (c : ascii) (s : string) : option nat :=
  match s with
  | EmptyString => None
  | String a s' =>
      match rfind c s' with
      | Some i => Some (S i)
      | None => if Ascii.eqb a c then Some O else None
      end
  end.

(** [Path.suffix]: the name from its last dot on, when that dot is neither
    the first nor the last character of the name. *)
Definition path_suffix (p : Path) : string :=
  let name := path_name p in
  match rfind "."%char name with
  | Some i =>
      if ((0 <? i) && (i <? String.length name - 1))%nat
      then String.substring i (String.length name - i) name
      else EmptyString
  | None => EmptyString
  end.

(** [str(path)] of a relative path. *)
Definition path_str (p : Path) : string := String.concat "/" p.

(** ** PathFilter *)

Definition _should_prune_dir (dirname : string)
    (excluded_patterns : gset string) : bool :=
  let lname := Py.lower dirname in
  bool_decide (lname ∈ excluded_patterns).

(** [file_path] is given relative to [root_dir], so [relative_to] cannot
    raise; [parts[:-1]] is [removelast]. *)
Definition is_excluded (file_path : Path)
    (excluded_extensions excluded_filenames_patterns : gset string) : bool :=
  let filename_lower := Py.lower (path_name file_path) in
  let extension_lower := Py.lower (path_suffix file_path) in
  if bool_decide (extension_lower ∈ excluded_extensions) then true
  else if bool_decide (filename_lower ∈ excluded_filenames_patterns) then true
  else existsb
         (fun part => bool_decide (Py.lower part ∈ excluded_filenames_patterns))
         (removelast file_path).

(** ** Discoverer *)

(** A directory: its sub-directories by name, and the names of its files. *)
Inductive tree : Type :=
| Dir (subdirs : list (string * tree)) (files : list string).

(** [os.walk(top, topdown=True)] whose consumer replaces [dirnames] by the
    names that [keep] retains before the walk goes on: one triple
    [(dirpath, dirnames, filenames)] per directory visited. *)
Fixpoint walk (keep : string -> bool) (dirpath : Path) (t : tree)
  : list (Path * list string * list string) :=
  match t with
  | Dir subdirs files =>
      (dirpath, List.filter keep (fst <$> subdirs), files)
      :: flat_map
           (fun d => if keep (fst d)
                     then walk keep (dirpath ++ [fst d]) (snd d)
                     else [])
           subdirs
  end.

Definition current_excluded_patterns (exclude_files_cli : option (list string))
  : gset string :=
  DEFAULT_EXCLUDED_FILENAMES_PATTERNS ∪ _normalize_patterns exclude_files_cli.

Definition is_relevant (cli_include_extensions current_include_extensions
                          : gset string) (file_path : Path) : bool :=
  let ext_lower := Py.lower (path_suffix file_path) in
  let filename_lower := Py.lower (path_name file_path) in
  if bool_decide (cli_include_extensions ≠ ∅) then
    bool_decide (ext_lower ∈ current_include_extensions)
    || bool_decide (filename_lower ∈ current_include_extensions)
  else if bool_decide (current_include_extensions ≠ ∅) then
    bool_decide (ext_lower ∈ current_include_extensions)
    || bool_decide (filename_lower ∈ current_include_extensions)
  else true.

Definition discover_code_files (root : tree)
    (include_ext_cli exclude_ext_cli exclude_files_cli : option (list string))
  : list Path :=
  let cli_include_extensions := _normalize_extensions include_ext_cli in
  let current_include_extensions :=
    if bool_decide (cli_include_extensions ≠ ∅) then cli_include_extensions
    else DEFAULT_RELEVANT_EXTENSIONS in
  let current_excluded_extensions :=
    DEFAULT_EXCLUDED_EXTENSIONS ∪ _normalize_extensions exclude_ext_cli in
  let current_excluded_filenames_patterns :=
    current_excluded_patterns exclude_files_cli in
  flat_map
    (fun '(dirpath, _, filenames) =>
       List.filter
         (fun file_path =>
            negb (is_excluded file_path current_excluded_extensions
                    current_excluded_filenames_patterns)
            && is_relevant cli_include_extensions current_include_extensions
                 file_path)
         ((fun filename => dirpath ++ [filename]) <$> filenames))
    (walk
       (fun d => negb (_should_prune_dir d current_excluded_filenames_patterns))
       [] root).

(** ** InteractiveSelector *)

(** One entry of [selectable_files] (a dict in the source). *)
Record f_info : Type := {
  id : Z;
  path_obj : Path;
  rel_path_str : string;
  selected : bool
}.

(** What the review loop prints. *)
Inductive output : Type :=
| OutNoFilesRemaining
| OutUpdatedList (rels : list string)
| OutAdded (exts : gset string)
| OutAllExcluded
| OutAlreadyExcluded (exts : gset string)
| OutUsageExclude
| OutListing (entries : list f_info) (excluded : gset string)
| OutAllSelected
| OutNoFilesToSelect
| OutAllDeselected
| OutNoFilesToDeselect
| OutToggled (rel : string) (now_selected : bool)
| OutWarnNotFound (invalid_id : Z)
| OutInvalidInput.

Definition _rebuild_selectable_list (all_discovered_files : list Path)
    (current_interactive_exclusions : gset string)
  : list output * list f_info * list Path :=
  let filtered_for_display :=
    List.filter
      (fun abs_path =>
         bool_decide
           (Py.lower (path_suffix abs_path) ∉ current_interactive_exclusions))
      all_discovered_files in
  match filtered_for_display with
  | [] => ([OutNoFilesRemaining], [], filtered_for_display)
  | _ =>
      let selectable_files_rebuilt :=
        imap (fun i abs_path =>
                {| id := Z.of_nat i + 1;
                   path_obj := abs_path;
                   rel_path_str := path_str abs_path;
                   selected := true |})
             filtered_for_display in
      ([OutUpdatedList (rel_path_str <$> selectable_files_rebuilt)],
       selectable_files_rebuilt, filtered_for_display)
  end.

(** The local variables of the review loop. *)
Record session : Type := {
  current_interactive_exclusions : gset string;
  selectable_files : list f_info;
  current_shown_files : list Path
}.

(** What [input] delivers: a line, or Ctrl+C. *)
Inductive user_action : Type :=
| Line (text : string)
| Interrupt.

(** One turn of the [while True] loop. *)
Inductive turn : Type :=
| Continue (st : session) (out : list output)
| Break (st : session)
| Abort.

(** The loop adding the normalized extensions to the exclusion set and
    counting the new ones. *)
Definition add_exclusions (extensions_to_exclude : gset string)
    (current : gset string) : gset string * Z :=
  set_fold
    (fun ext '(cur, newly_excluded_count) =>
       if bool_decide (ext ∉ cur)
       then ({[ ext ]} ∪ cur, newly_excluded_count + 1)
       else (cur, newly_excluded_count))
    (current, 0) extensions_to_exclude.

Definition set_selected (b : bool) (f : f_info) : f_info :=
  {| id := id f; path_obj := path_obj f;
     rel_path_str := rel_path_str f; selected := b |}.

(** The toggling loop over [selectable_files]: the entries after it, what
    it printed, and [valid_ids_toggled]. *)
Fixpoint toggle_ids (ids_to_toggle : gset Z) (fs : list f_info)
  : list f_info * list output * gset Z :=
  match fs with
  | [] => ([], [], ∅)
  | f :: rest =>
      let '(rest', out, valid) := toggle_ids ids_to_toggle rest in
      if bool_decide (id f ∈ ids_to_toggle)
      then (set_selected (negb (selected f)) f :: rest',
            OutToggled (rel_path_str f) (negb (selected f)) :: out,
            {[ id f ]} ∪ valid)
      else (f :: rest', out, valid)
  end.

(** The set comprehension [{int(x) for x in user_input.split()}]; [None]
    when some [int(x)] raises [ValueError]. *)
Definition parse_ids (user_input : string) : option (gset Z) :=
  list_to_set <$> mapM Py.int (Py.split user_input).

Definition with_selectable (st : session) (fs : list f_info) : session :=
  {| current_interactive_exclusions := current_interactive_exclusions st;
     selectable_files := fs;
     current_shown_files := current_shown_files st |}.

Definition review_turn (initial_discovered_files : list Path)
    (st : session) (a : user_action) : turn :=
  match a with
  | Interrupt => Abort
  | Line text =>
      let user_input := Py.lower (Py.strip text) in
      if Py.is_empty user_input || bool_decide (user_input = "done")
      then Break st
      else if bool_decide (user_input = "cancel") then Abort
      else if Py.startswith user_input "exclude " then
        let parts := Py.split user_input in
        if bool_decide (1 < length parts)%nat then
          let extensions_to_exclude :=
            _normalize_extensions (Some (tail parts)) in
          let '(exclusions, newly_excluded_count) :=
            add_exclusions extensions_to_exclude
              (current_interactive_exclusions st) in
          if 0 <? newly_excluded_count then
            let '(out, fs, shown) :=
              _rebuild_selectable_list initial_discovered_files exclusions in
            Continue
              {| current_interactive_exclusions := exclusions;
                 selectable_files := fs;
                 current_shown_files := shown |}
              (OutAdded extensions_to_exclude :: out
               ++ match fs with [] => [OutAllExcluded] | _ => [] end)
          else
            Continue
              {| current_interactive_exclusions := exclusions;
                 selectable_files := selectable_files st;
                 current_shown_files := current_shown_files st |}
              [OutAlreadyExcluded extensions_to_exclude]
        else Continue st [OutUsageExclude]
      else if bool_decide (user_input = "list") then
        Continue st
          [OutListing (selectable_files st)
             (current_interactive_exclusions st)]
      else if bool_decide (user_input = "all") then
        Continue
          (with_selectable st (set_selected true <$> selectable_files st))
          [match selectable_files st with
           | [] => OutNoFilesToSelect | _ => OutAllSelected end]
      else if bool_decide (user_input = "none") then
        Continue
          (with_selectable st (set_selected false <$> selectable_files st))
          [match selectable_files st with
           | [] => OutNoFilesToDeselect | _ => OutAllDeselected end]
      else
        match parse_ids user_input with
        | Some ids_to_toggle =>
            let '(fs, out, valid_ids_toggled) :=
              toggle_ids ids_to_toggle (selectable_files st) in
            Continue (with_selectable st fs)
              (out ++ (OutWarnNotFound
                         <$> elements (ids_to_toggle ∖ valid_ids_toggled)))
        | None => Continue st [OutInvalidInput]
        end
  end.

(** How a review ends; [Reviewing] is a loop still waiting for input. *)
Inductive review_result : Type :=
| Confirmed (final_selected_files : list Path)
| Cancelled
| Reviewing (st : session) (out : list output).

Definition final_selected_files (st : session) : list Path :=
  path_obj <$> List.filter selected (selectable_files st).

(** The loop over the actions the user takes, in order. *)
Fixpoint review_loop (initial_discovered_files : list Path)
    (st : session) (out : list output) (actions : list user_action)
  : review_result :=
  match actions with
  | [] => Reviewing st out
  | a :: rest =>
      match review_turn initial_discovered_files st a with
      | Continue st' out' =>
          review_loop initial_discovered_files st' (out ++ out') rest
      | Break st' => Confirmed (final_selected_files st')
      | Abort => Cancelled
      end
  end.

Definition initial_session (initial_discovered_files : list Path)
  : list output * session :=
  let '(out, fs, shown) :=
    _rebuild_selectable_list initial_discovered_files ∅ in
  (out, {| current_interactive_exclusions := ∅;
           selectable_files := fs;
           current_shown_files := shown |}).

Definition review_and_filter_files_interactive
    (initial_discovered_files : list Path) (actions : list user_action)
  : review_result :=
  match initial_discovered_files with
  | [] => Confirmed []
  | _ =>
      let '(out, st) := initial_session initial_discovered_files in
      match selectable_files st with
      | [] => Confirmed []
      | _ => review_loop initial_discovered_files st out actions
      end
  end.

(** ** Budget enforcement: the scan loop of [main] *)

(** [file_path.read_text(...)]: the content, or the exception raised. *)
Inductive read_result : Type :=
| ReadOk (content : string)
| ReadFailed (reason : string).

(** What the scan loop does, in order: its prints and its calls of the
    analysis collaborator. *)
Inductive scan_event : Type :=
| EvReadError (error_msg : string)
| EvSkipEmptyFile (rel : string)
| EvSkipFile (rel : string) (content_len : Z)
| EvStopFile (rel : string)
| EvAnalyze (display_filepath chunk : string)
| EvLimitReached.

Record scan_state : Type := {
  all_llm_findings : list string;
  total_chars_processed : Z;
  events : list scan_event;
  llm_calls : nat
}.

Definition log (e : scan_event) (st : scan_state) : scan_state :=
  {| all_llm_findings := all_llm_findings st;
     total_chars_processed := total_chars_processed st;
     events := events st ++ [e];
     llm_calls := llm_calls st |}.

(** [max_total > 0 and (total + n > max_total) and total < max_total]:
    the test made before a file, with the length of its content, and
    before a chunk, with the length of the chunk. *)
Definition would_exceed (max_total_chars total n : Z) : bool :=
  (0 <? max_total_chars) && (max_total_chars <? total + n)
  && (total <? max_total_chars).

(** [max_total > 0 and total >= max_total] *)
Definition limit_reached (max_total_chars total : Z) : bool :=
  (0 <? max_total_chars) && (max_total_chars <=? total).

(** [not s.strip()] *)
Definition is_blank (s : string) : bool := Py.is_empty (Py.strip s).

(** The state in which the scan enters its loop. *)
Definition scan_start : scan_state :=
  {| all_llm_findings := []; total_chars_processed := 0;
     events := []; llm_calls := O |}.

Section Scan.

(** The analysis collaborator: its answer to the [n]-th call, for a
    display path and a chunk. *)
Variable analyze_code_with_llm : nat -> string -> string -> string.
Variables chunk_size max_total_chars : Z.

Definition display_filepath_of (relative_path_str : string)
    (chunk_idx n_chunks : nat) : string :=
  if bool_decide (1 < n_chunks)%nat
  then relative_path_str +:+ " (Chunk " +:+ pretty (chunk_idx + 1)%nat
       +:+ "/" +:+ pretty n_chunks +:+ ")"
  else relative_path_str.

(** The call of the collaborator on one chunk and the bookkeeping after
    it. *)
Definition send_chunk (relative_path_str : string)
    (chunk_idx n_chunks : nat) (chunk : string) (st : scan_state)
  : scan_state :=
  let display_filepath :=
    display_filepath_of relative_path_str chunk_idx n_chunks in
  let llm_response :=
    analyze_code_with_llm (llm_calls st) display_filepath chunk in
  {| all_llm_findings :=
       if Py.truthy llm_response
       then all_llm_findings st ++ [llm_response]
       else all_llm_findings st;
     total_chars_processed := total_chars_processed st + Py.len chunk;
     events := events st ++ [EvAnalyze display_filepath chunk];
     llm_calls := S (llm_calls st) |}.

(** The loop over the chunks of file number [i] of [n_files]; [chunks] are
    the chunks from index [chunk_idx] on. *)
Fixpoint scan_chunks (n_files i : nat) (relative_path_str : string)
    (n_chunks chunk_idx : nat) (chunks : list string) (st : scan_state)
  : scan_state :=
  match chunks with
  | [] => st
  | chunk :: rest =>
      if is_blank chunk then
        scan_chunks n_files i relative_path_str n_chunks (S chunk_idx) rest st
      else if would_exceed max_total_chars (total_chars_processed st)
                (Py.len chunk)
      then log (EvStopFile relative_path_str) st
      else
        let st' := send_chunk relative_path_str chunk_idx n_chunks chunk st in
        if limit_reached max_total_chars (total_chars_processed st') then
          if bool_decide (i < n_files - 1 ∨ chunk_idx < n_chunks - 1)%nat
          then log EvLimitReached st'
          else st'
        else
          scan_chunks n_files i relative_path_str n_chunks (S chunk_idx)
            rest st'
  end.

(** The loop over [files_to_scan]; [files] are the files from index [i]
    on, each with what reading it gives. *)
Fixpoint scan_files (n_files i : nat) (files : list (Path * read_result))
    (st : scan_state) : scan_state :=
  match files with
  | [] => st
  | (file_path, r) :: rest =>
      let relative_path_str := path_str file_path in
      match r with
      | ReadFailed reason =>
          let error_msg :=
            "Error: Could not read file " +:+ relative_path_str
            +:+ ". Reason: " +:+ reason in
          scan_files n_files (S i) rest
            {| all_llm_findings := all_llm_findings st ++ [error_msg];
               total_chars_processed := total_chars_processed st;
               events := events st ++ [EvReadError error_msg];
               llm_calls := llm_calls st |}
      | ReadOk content =>
          if is_blank content then
            scan_files n_files (S i) rest
              (log (EvSkipEmptyFile relative_path_str) st)
          else
            let content_len := Py.len content in
            if would_exceed max_total_chars (total_chars_processed st)
                 content_len
            then
              scan_files n_files (S i) rest
                (log (EvSkipFile relative_path_str content_len) st)
            else
              let code_chunks := chunk_content content chunk_size in
              let st' :=
                scan_chunks n_files i relative_path_str (length code_chunks)
                  O code_chunks st in
              if limit_reached max_total_chars (total_chars_processed st')
              then st'
              else scan_files n_files (S i) rest st'
      end
  end.

Definition scan (files_to_scan : list (Path * read_result)) : scan_state :=
  scan_files (length files_to_scan) O files_to_scan scan_start.

End Scan.

(** The chunks handed to the collaborator, in order. *)
Definition sent_chunks (evs : list scan_event) : list string :=
  flat_map (fun e => match e with EvAnalyze _ c => [c] | _ => [] end) evs.

(** ** ReportAggregator *)

Definition nl : string := String (ascii_of_nat 10) EmptyString.

Definition disclaimer : string :=
  "This report was generated by an AI-assisted security review tool (Secrev). "
  +:+ "The findings are potential vulnerabilities and **require human verification and contextual understanding.** "
  +:+ "This tool is an aid and not a replacement for thorough manual code review, dedicated SAST/DAST tools, or professional security audits.".

Definition error_marker : string := "Error:".
Definition no_vulns_marker : string :=
  "No critical security vulnerabilities identified".

Definition no_findings_reported_msg : string :=
  "No potential vulnerabilities were reported by the LLM across the scanned files."
  +:+ nl.

Definition reviewed_nothing_critical_msg : string :=
  "The LLM reviewed the content but did not identify any critical security vulnerabilities."
  +:+ nl.

(** The variables the loop over the findings updates. *)
Record report_acc : Type := {
  actionable_findings_count : Z;
  md_content_parts : list string;
  txt_content_parts : list string
}.

Definition report_finding (acc : report_acc) (finding_text : string)
  : report_acc :=
  let is_error := Py.contains error_marker finding_text in
  let is_no_vulns := Py.contains no_vulns_marker finding_text in
  if negb is_error && negb is_no_vulns then
    {| actionable_findings_count := actionable_findings_count acc + 1;
       md_content_parts :=
         md_content_parts acc
         ++ ["---" +:+ nl; finding_text +:+ nl +:+ nl];
       txt_content_parts :=
         txt_content_parts acc
         ++ ["------------------------" +:+ nl +:+ finding_text
             +:+ nl +:+ nl] |}
  else if is_error then
    {| actionable_findings_count := actionable_findings_count acc;
       md_content_parts :=
         md_content_parts acc
         ++ ["---" +:+ nl;
             "**Analysis Issue:**" +:+ nl +:+ finding_text +:+ nl +:+ nl];
       txt_content_parts :=
         txt_content_parts acc
         ++ ["--- ANALYSIS ISSUE ---" +:+ nl +:+ finding_text
             +:+ nl +:+ nl] |}
  else acc.

(** [any("Error:" not in f for f in findings if f)] *)
Definition some_finding_without_error (findings : list string) : bool :=
  existsb
    (fun f => negb (Py.contains error_marker f))
    (List.filter Py.truthy findings).

(** The parts both reports start with. *)
Definition report_head (report_title : string) : report_acc :=
  {| actionable_findings_count := 0;
     md_content_parts :=
       ["# " +:+ report_title +:+ nl +:+ nl; "## Disclaimer" +:+ nl;
        disclaimer +:+ nl +:+ nl; "## Findings" +:+ nl];
     txt_content_parts :=
       [report_title +:+ nl +:+ nl; "Disclaimer:" +:+ nl;
        disclaimer +:+ nl +:+ nl; "Findings:" +:+ nl;
        "====================" +:+ nl +:+ nl] |}.

Definition append_msg (msg : string) (acc : report_acc) : report_acc :=
  {| actionable_findings_count := actionable_findings_count acc;
     md_content_parts := md_content_parts acc ++ [msg];
     txt_content_parts := txt_content_parts acc ++ [msg] |}.

(** The two report texts [generate_report] writes: Markdown and plain.
    [report_title] carries the time of the run. *)
Definition generate_report (report_title : string) (findings : list string)
  : string * string :=
  let acc :=
    match findings with
    | [] => append_msg no_findings_reported_msg (report_head report_title)
    | _ =>
        let acc1 :=
          fold_left report_finding findings (report_head report_title) in
        if (actionable_findings_count acc1 =? 0)
           && some_finding_without_error findings
        then append_msg reviewed_nothing_critical_msg acc1
        else acc1
    end in
  (Py.join (md_content_parts acc), Py.join (txt_content_parts acc)).

(** A finding is actionable when it carries neither marker. *)
Definition actionable (finding_text : string) : bool :=
  negb (Py.contains error_marker finding_text)
  && negb (Py.contains no_vulns_marker finding_text).


(** ** Vocabulary of the statements *)

(** Total length of a list of chunks. *)
Definition sum_len (cs : list string) : Z :=
  foldr (fun c n => Py.len c + n) 0 cs.

(** The running total is the number of characters sent so far. *)
Definition accounted (st : scan_state) : Prop :=
  total_chars_processed st = sum_len (sent_chunks (events st)).

(** Normalization following the words of the specification: strip the
    surrounding whitespace and the leading dots, lowercase, prefix with a
    single dot; empty tokens are dropped. *)
Definition spec_normalize_extension (e : string) : option string :=
  let cleaned :=
    Py.lower (Py.lstrip_by (fun c => Ascii.eqb c ".") (Py.strip e)) in
  if Py.is_empty cleaned then None else Some ("." +:+ cleaned).

Definition spec_normalize_extensions (extensions : list string)
  : gset string :=
  list_to_set (omap spec_normalize_extension extensions).

(** The characters of a string. *)
Abbreviation chars := String.list_ascii_of_string.

(** No stop in the middle of a file's chunks was logged. *)
Definition no_stop (evs : list scan_event) : Prop :=
  Forall (fun e => match e with EvStopFile _ => False | _ => True end) evs.

(** The files shown under an exclusion set: the original list without the
    files whose lowercased suffix is excluded. *)
Definition displayed (initial : list Path) (excl : gset string) : list Path :=
  List.filter
    (fun p => bool_decide (Py.lower (path_suffix p) ∉ excl)) initial.

(** The entry built for the file at position [i] of the displayed list. *)
Definition fresh_entry (i : nat) (p : Path) : f_info :=
  {| id := Z.of_nat i + 1; path_obj := p;
     rel_path_str := path_str p; selected := true |}.

(** The session right after a rebuild under the exclusion set [excl]. *)
Definition rebuilt (initial : list Path) (excl : gset string) : session :=
  {| current_interactive_exclusions := excl;
     selectable_files := imap fresh_entry (displayed initial excl);
     current_shown_files := displayed initial excl |}.

(** The extensions an [exclude] line names, normalized. *)
Definition exclude_extensions (text : string) : gset string :=
  _normalize_extensions (Some (tail (Py.split (Py.lower (Py.strip text))))).

(** The inputs the loop tests for before it reads numbers. *)
Definition recognized_keyword (user_input : string) : bool :=
  Py.is_empty user_input
  || bool_decide (user_input = "done")
  || bool_decide (user_input = "cancel")
  || Py.startswith user_input "exclude "
  || bool_decide (user_input = "list")
  || bool_decide (user_input = "all")
  || bool_decide (user_input = "none").

(** What holds of the session at every prompt. *)
Definition session_ok (initial : list Path) (st : session) : Prop :=
  (EmptyString ∉ current_interactive_exclusions st)
  /\ path_obj <$> selectable_files st
     = displayed initial (current_interactive_exclusions st)
  /\ current_shown_files st
     = displayed initial (current_interactive_exclusions st).

(** Every character of [s] is whitespace. *)
Fixpoint all_space (s : string) : bool :=
  match s with
  | EmptyString => true
  | String c s' => Py.isspace c && all_space s'
  end.

(** [s] is empty or its last character does not satisfy [p]. *)
Fixpoint last_not (p : ascii -> bool) (s : string) : bool :=
  match s with
  | EmptyString => true
  | String c s' =>
      match s' with
      | EmptyString => negb (p c)
      | _ => last_not p s'
      end
  end.

(** A tree for the examples: [a.py] and [a.pyc] at the root, a
    [node_modules] directory, and [src] with a [Build] directory in it. *)
Definition sample_tree : tree :=
  Dir [("node_modules", Dir [] ["b.js"]);
       ("src", Dir [("Build", Dir [] ["x.py"])] ["m.py"; "m.pyc"])]
      ["a.py"; "a.pyc"].

(** Files for the examples. *)
Definition sample_files : list Path :=
  [["a.py"]; ["src"; "b.js"]; ["Dockerfile"]].

(** A content of [n] letters, for the examples. *)
Definition letters (n : nat) : string :=
  String.string_of_list_ascii (replicate n "a"%char).

(** ** Further vocabulary *)

(** The chunks of a file the scan hands on when nothing limits it: the
    chunks of a readable, non-blank file that are not blank. *)
Definition file_chunks (chunk_size : Z) (f : Path * read_result)
  : list string :=
  match f.2 with
  | ReadOk content =>
      if is_blank content then []
      else List.filter (fun c => negb (is_blank c))
             (chunk_content content chunk_size)
  | ReadFailed _ => []
  end.

(** The file test of [discover_code_files] under its three CLI lists. *)
Definition accepts (include_ext_cli exclude_ext_cli exclude_files_cli
                      : option (list string)) (file_path : Path) : bool :=
  negb (is_excluded file_path
          (DEFAULT_EXCLUDED_EXTENSIONS ∪ _normalize_extensions exclude_ext_cli)
          (current_excluded_patterns exclude_files_cli))
  && is_relevant (_normalize_extensions include_ext_cli)
       (if bool_decide (_normalize_extensions include_ext_cli ≠ ∅)
        then _normalize_extensions include_ext_cli
        else DEFAULT_RELEVANT_EXTENSIONS)
       file_path.

(** The files of one visited directory that pass the file test. *)
Definition accepted_in (include_ext_cli exclude_ext_cli exclude_files_cli
                          : option (list string))
    (visited : Path * list string * list string) : list Path :=
  List.filter (accepts include_ext_cli exclude_ext_cli exclude_files_cli)
    ((fun filename => visited.1.1 ++ [filename]) <$> visited.2).

(** The discovery over a walk that enters every directory. *)
Definition discover_unpruned (root : tree)
    (include_ext_cli exclude_ext_cli exclude_files_cli : option (list string))
  : list Path :=
  flat_map (accepted_in include_ext_cli exclude_ext_cli exclude_files_cli)
    (walk (fun _ => true) [] root).

(** [tree_file t p]: the tree [t] has a file at the relative path [p]. *)
Inductive tree_file : tree -> Path -> Prop :=
| tree_file_here subdirs files filename :
    filename ∈ files -> tree_file (Dir subdirs files) [filename]
| tree_file_below subdirs files d sub p :
    (d, sub) ∈ subdirs -> tree_file sub p ->
    tree_file (Dir subdirs files) (d :: p).

(** ** The analysis call *)

(** [response.prompt_feedback]: the block reason as it prints ([None] when
    it is not set), and its message. *)
Record prompt_feedback : Type := {
  block_reason : option string;
  block_reason_message : string
}.

(** What the [try] block of [analyze_code_with_llm] meets: an exception,
    with its text, or a response with its parts (empty or not), its
    feedback and its text. *)
Inductive generation : Type :=
| Raised (e : string)
| Responded (parts_empty : bool) (feedback : option prompt_feedback)
    (text : string).

Definition full_prompt (system_prompt filepath_display code_content_chunk
                          : string) : string :=
  system_prompt +:+ nl +:+ nl +:+ "File: " +:+ filepath_display +:+ nl +:+ nl
  +:+ "Code Snippet to Analyze:" +:+ nl +:+ "```" +:+ nl
  +:+ code_content_chunk +:+ nl +:+ "```".

(** [generate_content] stands for the model: what it does with a model
    name and a prompt. *)
Definition analyze_code_with_llm
    (generate_content : string -> string -> generation)
    (filepath_display code_content_chunk model_name system_prompt : string)
  : string :=
  match generate_content model_name
          (full_prompt system_prompt filepath_display code_content_chunk) with
  | Raised e =>
      "Error during LLM API call for " +:+ filepath_display +:+ ": " +:+ e
  | Responded true feedback _ =>
      match feedback with
      | Some {| block_reason := Some reason; block_reason_message := message |} =>
          "Error: Content generation blocked for " +:+ filepath_display
          +:+ ". Reason: "
          +:+ (if Py.truthy message then message else reason)
      | _ =>
          "Error: Received an empty response from Gemini for "
          +:+ filepath_display +:+ "."
      end
  | Responded false _ text => text
  end.

(** No finding is the empty string. *)
Definition findings_nonempty (st : scan_state) : Prop :=
  Forall (fun f => f <> EmptyString) (all_llm_findings st).

(** The ids are the positions, from 1. *)
Definition ids_in_order (st : session) : Prop :=
  forall (k : nat) (f : f_info),
    selectable_files st !! k = Some f -> id f = Z.of_nat k + 1.

(** The finding [f] is in both texts collected so far. *)
Definition holds (f : string) (acc : report_acc) : Prop :=
  Py.contains f (Py.join (md_content_parts acc)) = true
  /\ Py.contains f (Py.join (txt_content_parts acc)) = true.

(** The message the scan records for a file it cannot read. *)
Definition read_error_msg (file_path : Path) (reason : string) : string :=
  "Error: Could not read file " +:+ path_str file_path
  +:+ ". Reason: " +:+ reason.


(** Files with what reading them gives, for the examples. *)
Definition sample_reads : list (Path * read_result) :=
  [(["a.py"], ReadOk "abcde"); (["b.py"], ReadFailed "denied");
   (["c.py"], ReadOk "  ")].


(* ================================================================= *)
(** * Properties *)

(** ** Strings as lists of characters *)

Lemma chars_inj s1 s2 : chars s1 = chars s2 -> s1 = s2.
Proof.
  intros H. rewrite <- (String.string_of_list_ascii_of_string s1),
    <- (String.string_of_list_ascii_of_string s2). by rewrite H.
Qed.

Lemma chars_app s1 s2 : chars (s1 +:+ s2) = chars s1 ++ chars s2.
Proof. induction s1 as [|c s1 IH]; simpl; [done|]. by rewrite <- IH. Qed.

Lemma chars_length s : length (chars s) = String.length s.
Proof. induction s; simpl; congruence. Qed.

Lemma chars_substring n m s :
  chars (String.substring n m s) = take m (drop n (chars s)).
Proof.
  revert n m. induction s as [|c s IH]; intros [|n] [|m]; simpl; try done.
  f_equal. apply (IH O m).
Qed.

Lemma chars_join ss : chars (Py.join ss) = mjoin (chars <$> ss).
Proof.
  induction ss as [|s ss IH]; simpl; [done|].
  fold (Py.join ss). fold (String.append s (Py.join ss)).
  by rewrite chars_app, IH.
Qed.

Lemma len_nonneg s : 0 <= Py.len s.
Proof. unfold Py.len. lia. Qed.

Lemma len_app s1 s2 : Py.len (s1 +:+ s2) = Py.len s1 + Py.len s2.
Proof.
  unfold Py.len. rewrite <- !chars_length, chars_app, length_app. lia.
Qed.

Lemma len_join ss : Py.len (Py.join ss) = sum_len ss.
Proof.
  induction ss as [|s ss IH]; simpl; [done|].
  fold (Py.join ss). fold (String.append s (Py.join ss)).
  by rewrite len_app, IH.
Qed.

(** ** Chunker *)

Lemma range_go_lookup fuel i stop step k x :
  Py.range_go fuel i stop step !! k = Some x ->
  x = i + Z.of_nat k * step /\ x < stop.
Proof.
  revert i k. induction fuel as [|fuel IH]; intros i k; simpl; [done|].
  destruct (Z.ltb_spec i stop); [|done].
  destruct k as [|k]; simpl.
  - intros [= <-]. lia.
  - intros Hk. apply IH in Hk. lia.
Qed.

Lemma range_go_length fuel i stop step :
  0 < step -> stop - i <= Z.of_nat fuel -> stop - i > - step ->
  Z.of_nat (length (Py.range_go fuel i stop step)) = ceil_div (stop - i) step.
Proof.
  intros Hstep. revert i. unfold ceil_div.
  induction fuel as [|fuel IH]; intros i Hfuel Hlow; simpl.
  - symmetry. apply Z.div_small. lia.
  - destruct (Z.ltb_spec i stop); simpl.
    + rewrite Nat2Z.inj_succ, IH by lia.
      replace (stop - i + step - 1)
        with (stop - (i + step) + step - 1 + 1 * step) by lia.
      rewrite Z.div_add by lia. lia.
    + symmetry. apply Z.div_small. lia.
Qed.

(** The windows taken at the indices of the range tile the rest of the
    content. *)
Lemma range_go_join fuel (l : list ascii) i step :
  0 < step -> 0 <= i -> Z.of_nat (length l) - i <= Z.of_nat fuel ->
  mjoin ((fun j => take (Z.to_nat step) (drop (Z.to_nat j) l))
           <$> Py.range_go fuel i (Z.of_nat (length l)) step)
  = drop (Z.to_nat i) l.
Proof.
  intros Hstep. revert i.
  induction fuel as [|fuel IH]; intros i Hi Hfuel; simpl.
  - rewrite drop_ge; [done|lia].
  - destruct (Z.ltb_spec i (Z.of_nat (length l))); simpl.
    + rewrite IH by lia.
      replace (Z.to_nat (i + step))
        with (Z.to_nat i + Z.to_nat step)%nat by lia.
      rewrite <- drop_drop. apply take_drop.
    + rewrite drop_ge; [done|lia].
Qed.

(** [ceil_div n d] is the least [k] with [n <= k * d]. *)
Lemma ceil_div_spec n d k :
  0 < d -> ceil_div n d = k <-> (k - 1) * d < n <= k * d.
Proof.
  intros Hd. unfold ceil_div. split.
  - intros <-. pose proof (Z.mul_div_le (n + d - 1) d Hd).
    pose proof (Z.mul_succ_div_gt (n + d - 1) d Hd). nia.
  - intros [H1 H2]. symmetry.
    apply Z.div_unique with (r := n + d - 1 - d * k); nia.
Qed.

Lemma chunk_content_pos C S :
  0 < S ->
  chunk_content C S
  = (fun i => Py.slice C i (i + S)) <$> Py.range_go (Z.to_nat (Py.len C)) 0 (Py.len C) S.
Proof.
  intros HS. unfold chunk_content, Py.range.
  destruct (Z.leb_spec S 0); [lia|]. by rewrite Z.sub_0_r.
Qed.

Lemma chunk_content_join C S : 0 < S -> Py.join (chunk_content C S) = C.
Proof.
  intros HS. rewrite chunk_content_pos by done.
  apply chars_inj. rewrite chars_join, <- list_fmap_compose.
  rewrite (list_fmap_ext _
    (fun j => take (Z.to_nat S) (drop (Z.to_nat j) (chars C)))).
  - unfold Py.len. rewrite <- chars_length.
    rewrite range_go_join; [done|lia|lia|lia].
  - intros k x Hx. simpl. apply range_go_lookup in Hx.
    unfold Py.slice. rewrite chars_substring. do 2 f_equal. lia.
Qed.

Lemma chunk_content_full_windows C S (k : nat) (c : string) :
  0 < S ->
  chunk_content C S !! k = Some c ->
  (k + 1 < length (chunk_content C S))%nat ->
  Py.len c = S.
Proof.
  intros HS. rewrite chunk_content_pos by done. intros Hk Hlen.
  rewrite length_fmap in Hlen. rewrite list_lookup_fmap in Hk.
  destruct (lookup_lt_is_Some_2 _ _ Hlen) as [y Hy].
  apply range_go_lookup in Hy.
  destruct (Py.range_go _ _ _ _ !! k) as [x|] eqn:Hx; [|done].
  apply range_go_lookup in Hx. simpl in Hk. injection Hk as <-.
  unfold Py.len, Py.slice in *.
  rewrite <- chars_length, chars_substring.
  rewrite length_take, length_drop, chars_length. lia.
Qed.

Lemma chunk_content_count C S :
  0 < S -> Z.of_nat (length (chunk_content C S)) = ceil_div (Py.len C) S.
Proof.
  intros HS. rewrite chunk_content_pos by done. rewrite length_fmap.
  pose proof (len_nonneg C).
  rewrite range_go_length; [f_equal; lia|lia|lia|lia].
Qed.

Lemma chunk_content_whole C S : S <= 0 -> chunk_content C S = [C].
Proof. intros HS. unfold chunk_content. destruct (Z.leb_spec S 0); [done|lia]. Qed.

(** C3. For a positive chunk size the chunks of [chunk_content], joined in
    order, give back the content, every chunk but the last has exactly the
    chunk size, and there are [ceil (len C / S)] of them; for a chunk size
    of zero or less the content is the only chunk. *)
Theorem chunk_content_partition (C : string) (S : Z) :
  (0 < S ->
     Py.join (chunk_content C S) = C
     /\ (forall (k : nat) (c : string),
           chunk_content C S !! k = Some c ->
           (k + 1 < length (chunk_content C S))%nat ->
           Py.len c = S)
     /\ Z.of_nat (length (chunk_content C S)) = ceil_div (Py.len C) S)
  /\ (S <= 0 -> chunk_content C S = [C]).
Proof.
  split.
  - intros HS. split; [|split].
    + by apply chunk_content_join.
    + intros k c. by apply chunk_content_full_windows.
    + by apply chunk_content_count.
  - apply chunk_content_whole.
Qed.

Lemma chunk_content_partition_witness :
  Py.join (chunk_content "abcdefg" 3) = "abcdefg"
  /\ Z.of_nat (length (chunk_content "abcdefg" 3)) = ceil_div 7 3
  /\ chunk_content "abcdefg" 0 = ["abcdefg"].
Proof.
  destruct (chunk_content_partition "abcdefg" 3) as [Hpos _].
  destruct (chunk_content_partition "abcdefg" 0) as [_ Hneg].
  destruct (Hpos ltac:(lia)) as (Hjoin & _ & Hcount).
  split; [exact Hjoin|]. split; [exact Hcount|]. apply Hneg. lia.
Defined.

(** The chunks of a content add up to its length. *)
Lemma chunk_content_sum_len content S :
  sum_len (chunk_content content S) = Py.len content.
Proof.
  destruct (Z.lt_ge_cases 0 S) as [H|H].
  - by rewrite <- len_join, chunk_content_join.
  - rewrite chunk_content_whole by lia. simpl. lia.
Qed.

(** ** Budget enforcement *)

Lemma sum_len_app a b : sum_len (a ++ b) = sum_len a + sum_len b.
Proof. induction a as [|x a IH]; simpl; lia. Qed.

Lemma sum_len_fmap cs : sum_len cs = foldr Z.add 0 (Py.len <$> cs).
Proof. induction cs as [|c cs IH]; simpl; [done|]. by rewrite IH. Qed.

Lemma sum_len_bound cs m :
  sum_len cs <= m -> Forall (fun c => Py.len c <= m) cs.
Proof.
  revert m. induction cs as [|c cs IH]; intros m; simpl; [constructor|].
  intros H. pose proof (len_nonneg c).
  assert (0 <= sum_len cs).
  { clear. induction cs as [|x cs IH]; simpl; [lia|].
    pose proof (len_nonneg x). lia. }
  constructor; [lia|]. apply IH. lia.
Qed.

Lemma sent_chunks_app a b :
  sent_chunks (a ++ b) = sent_chunks a ++ sent_chunks b.
Proof. unfold sent_chunks. apply flat_map_app. Qed.

Lemma would_exceed_spec m t n :
  would_exceed m t n = true <-> 0 < m /\ m < t + n /\ t < m.
Proof. unfold would_exceed. rewrite !andb_true_iff, !Z.ltb_lt. tauto. Qed.

Lemma would_exceed_false m t n :
  0 < m -> t < m -> would_exceed m t n = false -> t + n <= m.
Proof.
  intros Hm Ht H. destruct (Z.le_gt_cases (t + n) m) as [|Hgt]; [done|].
  assert (would_exceed m t n = true) by (apply would_exceed_spec; lia).
  congruence.
Qed.

Lemma would_exceed_fits m t n : t + n <= m -> would_exceed m t n = false.
Proof.
  intros H. destruct (would_exceed m t n) eqn:Hw; [|done].
  apply would_exceed_spec in Hw. lia.
Qed.

Lemma limit_reached_spec m t : limit_reached m t = true <-> 0 < m /\ m <= t.
Proof.
  unfold limit_reached. rewrite andb_true_iff, Z.ltb_lt, Z.leb_le. tauto.
Qed.

Lemma limit_reached_false m t : 0 < m -> limit_reached m t = false -> t < m.
Proof.
  intros Hm H. destruct (Z.lt_ge_cases t m) as [|Hge]; [done|].
  assert (limit_reached m t = true) by (apply limit_reached_spec; lia).
  congruence.
Qed.

Section ScanFacts.

Variable analyze : nat -> string -> string -> string.
Variables cs max : Z.

Lemma log_accounted e st :
  sent_chunks [e] = [] -> accounted st -> accounted (log e st).
Proof.
  unfold accounted, log. cbn [events total_chars_processed].
  intros He ->. by rewrite sent_chunks_app, He, app_nil_r.
Qed.

Lemma send_chunk_accounted rel k n c st :
  accounted st -> accounted (send_chunk analyze rel k n c st).
Proof.
  unfold accounted, send_chunk. cbn [events total_chars_processed].
  intros ->. rewrite sent_chunks_app, sum_len_app. simpl. lia.
Qed.

Lemma scan_chunks_accounted nf i rel n k chunks st :
  accounted st -> accounted (scan_chunks analyze max nf i rel n k chunks st).
Proof.
  revert k st.
  induction chunks as [|c chunks IH]; intros k st Hst; simpl; [done|].
  destruct (is_blank c); [by apply IH|].
  destruct (would_exceed _ _ _); [by apply log_accounted|].
  pose proof (send_chunk_accounted rel k n c st Hst) as Hs.
  destruct (limit_reached _ _); [|by apply IH].
  case_bool_decide; [by apply log_accounted | done].
Qed.

(** Below the budget before a file's chunks, within it after them. *)
Lemma scan_chunks_bounded nf i rel n k chunks st :
  0 < max -> total_chars_processed st < max ->
  total_chars_processed (scan_chunks analyze max nf i rel n k chunks st)
  <= max.
Proof.
  intros Hm. revert k st.
  induction chunks as [|c chunks IH]; intros k st Hst; simpl; [lia|].
  destruct (is_blank c); [by apply IH|].
  destruct (would_exceed _ _ _) eqn:Hw; [simpl; lia|].
  apply would_exceed_false in Hw; [|done..].
  destruct (limit_reached _ _) eqn:Hl.
  - case_bool_decide; simpl; lia.
  - apply IH. by apply limit_reached_false in Hl.
Qed.

Lemma scan_files_accounted nf i files st :
  accounted st -> accounted (scan_files analyze cs max nf i files st).
Proof.
  revert i st.
  induction files as [|[p r] files IH]; intros i st Hst; simpl; [done|].
  destruct r as [content|reason].
  - destruct (is_blank content); [by apply IH, log_accounted|].
    destruct (would_exceed _ _ _); [by apply IH, log_accounted|].
    pose proof (scan_chunks_accounted nf i (path_str p)
      (length (chunk_content content cs)) O (chunk_content content cs) st Hst).
    destruct (limit_reached _ _); [done|by apply IH].
  - apply IH. unfold accounted in *. cbn [events total_chars_processed].
    by rewrite sent_chunks_app, app_nil_r.
Qed.

Lemma scan_files_bounded nf i files st :
  0 < max -> total_chars_processed st < max ->
  total_chars_processed (scan_files analyze cs max nf i files st) <= max.
Proof.
  intros Hm. revert i st.
  induction files as [|[p r] files IH]; intros i st Hst; simpl; [lia|].
  destruct r as [content|reason]; [|by apply IH].
  destruct (is_blank content); [by apply IH|].
  destruct (would_exceed _ _ _); [by apply IH|].
  destruct (limit_reached _ _) eqn:Hl.
  - by apply scan_chunks_bounded.
  - apply IH. by apply limit_reached_false in Hl.
Qed.

(** A first file longer than a finite budget is skipped whole. *)
Lemma scan_skips_long_first_file p content rest :
  0 < max -> is_blank content = false -> max < Py.len content ->
  scan analyze cs max ((p, ReadOk content) :: rest)
  = scan_files analyze cs max (S (length rest)) 1 rest
      (log (EvSkipFile (path_str p) (Py.len content)) scan_start).
Proof.
  intros Hm Hb Hlen. unfold scan. simpl. rewrite Hb.
  assert (would_exceed max 0 (Py.len content) = true) as ->; [|done].
  apply would_exceed_spec. lia.
Qed.

(** A first file within the budget goes on to chunking. *)
Lemma scan_chunks_short_first_file p content rest :
  is_blank content = false -> Py.len content <= max ->
  scan analyze cs max ((p, ReadOk content) :: rest)
  = let code_chunks := chunk_content content cs in
    let st' :=
      scan_chunks analyze max (S (length rest)) 0 (path_str p)
        (length code_chunks) 0 code_chunks scan_start in
    if limit_reached max (total_chars_processed st') then st'
    else scan_files analyze cs max (S (length rest)) 1 rest st'.
Proof.
  intros Hb Hlen. unfold scan. simpl. rewrite Hb.
  by rewrite would_exceed_fits by (simpl; lia).
Qed.

End ScanFacts.

Lemma no_stop_snoc evs e :
  no_stop evs -> (forall rel, e <> EvStopFile rel) -> no_stop (evs ++ [e]).
Proof.
  intros H He. apply Forall_app. split; [done|].
  constructor; [|constructor]. destruct e; try done. by destruct (He rel).
Qed.

Lemma sum_len_nonneg cs : 0 <= sum_len cs.
Proof.
  induction cs as [|c cs IH]; simpl; [lia|]. pose proof (len_nonneg c). lia.
Qed.

Section NoStop.
Variable analyze : nat -> string -> string -> string.
Variables cs max : Z.

(** Chunks that fit the budget together are all handled without a stop. *)
Lemma scan_chunks_no_stop nf i rel n k chunks st :
  max <= 0 \/ total_chars_processed st + sum_len chunks <= max ->
  no_stop (events st) ->
  no_stop (events (scan_chunks analyze max nf i rel n k chunks st)).
Proof.
  revert k st. induction chunks as [|c chunks IH]; intros k st Hfit Hns; [done|].
  simpl in Hfit |- *. pose proof (len_nonneg c). pose proof (sum_len_nonneg chunks).
  destruct (is_blank c); [apply IH; [lia|done]|].
  assert (would_exceed max (total_chars_processed st) (Py.len c) = false) as ->.
  { destruct (would_exceed _ _ _) eqn:Hw; [|done].
    apply would_exceed_spec in Hw. lia. }
  assert (no_stop (events (send_chunk analyze rel k n c st))) as Hsent
    by (by apply no_stop_snoc).
  destruct (limit_reached _ _).
  - case_bool_decide; [|done]. by apply no_stop_snoc.
  - apply IH; [simpl; lia|done].
Qed.

Lemma scan_files_no_stop nf i files st :
  max <= 0 \/ total_chars_processed st < max ->
  no_stop (events st) ->
  no_stop (events (scan_files analyze cs max nf i files st)).
Proof.
  revert i st. induction files as [|[p r] files IH]; intros i st Hlt Hns; [done|].
  simpl. destruct r as [content|reason].
  - destruct (is_blank content); [apply IH; [done|by apply no_stop_snoc]|].
    destruct (would_exceed _ _ _) eqn:Hw;
      [apply IH; [done|by apply no_stop_snoc]|].
    assert (no_stop (events
              (scan_chunks analyze max nf i (path_str p)
                 (length (chunk_content content cs)) 0
                 (chunk_content content cs) st))) as Hch.
    { apply scan_chunks_no_stop; [|done].
      rewrite chunk_content_sum_len.
      destruct Hlt as [?|Hlt]; [by left|].
      destruct (Z.le_gt_cases max 0); [by left|right].
      apply would_exceed_false; [lia|done..]. }
    destruct (limit_reached _ _) eqn:Hl; [done|].
    apply IH; [|done].
    destruct (Z.le_gt_cases max 0); [by left|right].
    apply limit_reached_false in Hl; [done|lia].
  - apply IH; [done|]. by apply no_stop_snoc.
Qed.

Lemma scan_no_stop files : no_stop (events (scan analyze cs max files)).
Proof.
  apply scan_files_no_stop; [simpl; lia|constructor].
Qed.
End NoStop.

(** C1, as stated, fails. With a budget of 100 and one file of 180
    letters cut into chunks of 60, 60, 60, the file is skipped whole and
    no chunk is sent, not two; and a first chunk that is larger than the
    budget on its own (one chunk of 180) is not sent either: the stop
    check fires with nothing sent before. *)
Lemma budget_scenario_sends_no_chunk :
  Py.len <$> chunk_content (letters 180) 60 = [60; 60; 60]
  /\ events (scan (fun _ _ _ => "ok") 60 100 [(["f.py"], ReadOk (letters 180))])
     = [EvSkipFile "f.py" 180]
  /\ length (sent_chunks (events
       (scan (fun _ _ _ => "ok") 60 100 [(["f.py"], ReadOk (letters 180))])))
     <> 2%nat
  /\ Py.len <$> chunk_content (letters 180) 200 = [180]
  /\ sent_chunks (events
       (scan (fun _ _ _ => "ok") 200 100 [(["f.py"], ReadOk (letters 180))]))
     = []
  /\ would_exceed 100 0 180 = true.
Proof. vm_compute. repeat split; try reflexivity. discriminate. Qed.

(** C1, amended. With a budget of 100, a single non-blank file whose
    content chunks into 60, 60, 60 is skipped by the test made before the
    file, so no chunk is sent. In general, under a finite budget the
    running total is the number of characters sent, it never passes the
    budget, so no chunk longer than the budget is ever sent, the first one
    included; a file that is started fits the budget whole, so the scan
    never stops between the chunks of a file; and with nothing sent yet
    the stop check fires exactly when the chunk is longer than the
    budget. *)
Theorem budget_never_exceeded :
  (forall analyze cs p content,
      is_blank content = false ->
      Py.len <$> chunk_content content cs = [60; 60; 60] ->
      events (scan analyze cs 100 [(p, ReadOk content)])
      = [EvSkipFile (path_str p) 180])
  /\ (forall analyze cs max files,
        0 < max ->
        accounted (scan analyze cs max files)
        /\ total_chars_processed (scan analyze cs max files) <= max
        /\ Forall (fun c => Py.len c <= max)
             (sent_chunks (events (scan analyze cs max files)))
        /\ no_stop (events (scan analyze cs max files)))
  /\ (forall max n, 0 < max -> would_exceed max 0 n = true <-> max < n).
Proof.
  split; [|split].
  - intros analyze cs p content Hb Hlens.
    assert (Py.len content = 180) as Hlen.
    { rewrite <- (chunk_content_sum_len content cs), sum_len_fmap, Hlens.
      reflexivity. }
    rewrite scan_skips_long_first_file by (done || lia).
    simpl. by rewrite Hlen.
  - intros analyze cs max files Hmax.
    assert (accounted (scan analyze cs max files)) as Hacc.
    { apply scan_files_accounted. reflexivity. }
    assert (total_chars_processed (scan analyze cs max files) <= max) as Hle.
    { apply scan_files_bounded; simpl; lia. }
    split; [done|]. split; [done|]. split; [|apply scan_no_stop].
    apply sum_len_bound. by rewrite <- Hacc.
  - intros max n Hmax. rewrite would_exceed_spec. lia.
Qed.

Lemma budget_never_exceeded_witness :
  events (scan (fun _ _ _ => "ok") 60 100 [(["f.py"], ReadOk (letters 180))])
  = [EvSkipFile (path_str ["f.py"]) 180]
  /\ total_chars_processed
       (scan (fun _ _ _ => "ok") 60 100 [(["f.py"], ReadOk (letters 100))])
     <= 100
  /\ (would_exceed 100 0 180 = true <-> 100 < 180).
Proof.
  destruct budget_never_exceeded as (Hscen & Hgen & Hstop).
  split; [|split].
  - apply Hscen; reflexivity.
  - apply (Hgen (fun _ _ _ => "ok") 60 100
             [(["f.py"], ReadOk (letters 100))]). lia.
  - apply Hstop. lia.
Defined.

(** C2, as stated, fails. With a budget of 100 the very first file of a
    scan, 180 letters long, is skipped by the test made before the file
    although the running total is still zero; the second file, which
    fits, is then analysed. *)
Lemma first_file_over_budget_is_skipped :
  would_exceed 100 0 (Py.len (letters 180)) = true
  /\ events (scan (fun _ _ _ => "ok") 200 100
               [(["big.py"], ReadOk (letters 180));
                (["small.py"], ReadOk (letters 3))])
     = [EvSkipFile "big.py" 180; EvAnalyze "small.py" "aaa"].
Proof. vm_compute. split; reflexivity. Qed.

(** C2, amended. Under a finite budget the test made before a file skips
    it exactly when the running total is below the budget and the total
    plus the length of the file's content passes the budget; no budget
    needs to have been used. So the first file of a scan (running total
    zero), when not blank, is skipped exactly when its content is longer
    than the budget, and goes on to chunking otherwise. *)
Theorem first_file_skipped_iff_over_budget
    (analyze : nat -> string -> string -> string) (cs max : Z)
    (p : Path) (content : string) (rest : list (Path * read_result)) :
  0 < max ->
  is_blank content = false ->
  (forall total n,
      would_exceed max total n = true <-> total < max /\ max < total + n)
  /\ (would_exceed max 0 (Py.len content) = true <-> max < Py.len content)
  /\ (max < Py.len content ->
      scan analyze cs max ((p, ReadOk content) :: rest)
      = scan_files analyze cs max (S (length rest)) 1 rest
          (log (EvSkipFile (path_str p) (Py.len content)) scan_start))
  /\ (Py.len content <= max ->
      scan analyze cs max ((p, ReadOk content) :: rest)
      = let code_chunks := chunk_content content cs in
        let st' :=
          scan_chunks analyze max (S (length rest)) 0 (path_str p)
            (length code_chunks) 0 code_chunks scan_start in
        if limit_reached max (total_chars_processed st') then st'
        else scan_files analyze cs max (S (length rest)) 1 rest st').
Proof.
  intros Hmax Hb. split; [|split; [|split]].
  - intros total n. rewrite would_exceed_spec. lia.
  - rewrite would_exceed_spec. lia.
  - intros Hlen. by apply scan_skips_long_first_file.
  - intros Hlen. by apply scan_chunks_short_first_file.
Qed.

Lemma first_file_skipped_iff_over_budget_witness :
  0 < 100 /\ is_blank (letters 180) = false
  /\ (would_exceed 100 0 (Py.len (letters 180)) = true
      <-> 100 < Py.len (letters 180)).
Proof.
  split; [lia|]. split; [reflexivity|].
  apply (first_file_skipped_iff_over_budget (fun _ _ _ => "ok") 60 100
           ["f.py"] (letters 180) []); [lia|reflexivity].
Defined.

(** ** Normalization *)

Lemma app_cons c s1 s2 : String c s1 +:+ s2 = String c (s1 +:+ s2).
Proof. reflexivity. Qed.

Lemma lower_char_idemp c : Py.lower_char (Py.lower_char c) = Py.lower_char c.
Proof. destruct c as [[] [] [] [] [] [] [] []]; reflexivity. Qed.

Lemma isspace_lower_char c : Py.isspace (Py.lower_char c) = Py.isspace c.
Proof. destruct c as [[] [] [] [] [] [] [] []]; reflexivity. Qed.

Lemma lower_idemp s : Py.lower (Py.lower s) = Py.lower s.
Proof.
  induction s as [|c s IH]; simpl; [done|]. by rewrite lower_char_idemp, IH.
Qed.

Lemma lower_app s1 s2 : Py.lower (s1 +:+ s2) = Py.lower s1 +:+ Py.lower s2.
Proof.
  induction s1 as [|c s1 IH]; [done|].
  rewrite app_cons. simpl. by rewrite app_cons, IH.
Qed.

Lemma normalize_extension_empty e :
  normalize_extension e = EmptyString <-> Py.strip e = EmptyString.
Proof.
  unfold normalize_extension, Py.truthy.
  destruct (Py.strip e); simpl; split; done.
Qed.

Lemma normalize_extension_kept e :
  Py.strip e <> EmptyString ->
  normalize_extension e = "." +:+ Py.lower (Py.strip_chars ["."%char] e).
Proof. unfold normalize_extension, Py.truthy. by destruct (Py.strip e). Qed.

Lemma elem_of_normalize_extensions extensions x :
  x ∈ _normalize_extensions (Some extensions) <->
  exists e, e ∈ extensions /\ Py.strip e <> EmptyString
            /\ x = "." +:+ Py.lower (Py.strip_chars ["."%char] e).
Proof.
  assert (x ∈ (list_to_set (normalize_extension <$> extensions) : gset string)
                ∖ {[ EmptyString ]}
          <-> exists e, e ∈ extensions /\ Py.strip e <> EmptyString
                /\ x = "." +:+ Py.lower (Py.strip_chars ["."%char] e)) as H.
  { rewrite elem_of_difference, elem_of_list_to_set, list_elem_of_fmap,
      not_elem_of_singleton.
    split.
    - intros [(e & -> & He) Hne]. exists e. split; [done|].
      rewrite normalize_extension_empty in Hne. split; [done|].
      by apply normalize_extension_kept.
    - intros (e & He & Hs & ->). rewrite <- normalize_extension_kept by done.
      split; [by exists e|]. by rewrite normalize_extension_empty. }
  destruct extensions as [|e es]; [|exact H].
  simpl. split; [set_solver|].
  intros (e & He & _). by apply elem_of_nil in He.
Qed.

Lemma normalized_extension_shape extensions x :
  x ∈ _normalize_extensions extensions ->
  x <> EmptyString /\ Py.startswith x "." = true /\ Py.lower x = x.
Proof.
  destruct extensions as [extensions|]; [|set_solver].
  rewrite elem_of_normalize_extensions. intros (e & _ & _ & ->).
  split; [done|]. split.
  - rewrite app_cons. unfold Py.startswith. by destruct (_ +:+ _).
  - by rewrite lower_app, lower_idemp.
Qed.

(** C5, as stated, fails. The token [" py"] is kept with its blank: it
    normalizes to [". py"], where stripping the surrounding whitespace
    would give [".py"]. And the token ["py."] loses its trailing dot: it
    normalizes to [".py"], where stripping the leading dots only would
    give [".py."]. *)
Lemma normalize_keeps_whitespace :
  _normalize_extensions (Some [" py"]) = {[ ". py" ]}
  /\ spec_normalize_extensions [" py"] = {[ ".py" ]}
  /\ _normalize_extensions (Some [" py"]) <> spec_normalize_extensions [" py"]
  /\ _normalize_extensions (Some ["py."]) = {[ ".py" ]}
  /\ spec_normalize_extensions ["py."] = {[ ".py." ]}
  /\ _normalize_extensions (Some ["py."]) <> spec_normalize_extensions ["py."].
Proof. vm_compute. repeat split; try reflexivity; discriminate. Qed.

(** C5, amended. Normalization drops the tokens that are empty or only
    whitespace and maps every other token to a dot followed by the
    lowercase of the token without its leading and trailing dots;
    whitespace is not removed from a token that is kept. Every element of
    the normalized set is a nonempty lowercase string that starts with a
    dot. *)
Theorem normalize_extensions_elements (extensions : list string) (x : string) :
  (x ∈ _normalize_extensions (Some extensions) <->
   exists e, e ∈ extensions /\ Py.strip e <> EmptyString
             /\ x = "." +:+ Py.lower (Py.strip_chars ["."%char] e))
  /\ (x ∈ _normalize_extensions (Some extensions) ->
      x <> EmptyString /\ Py.startswith x "." = true /\ Py.lower x = x).
Proof.
  split.
  - apply elem_of_normalize_extensions.
  - apply normalized_extension_shape.
Qed.

Lemma normalize_extensions_elements_witness :
  ".py" ∈ _normalize_extensions (Some ["..Py."; "  "])
  /\ Py.lower ".py" = ".py".
Proof.
  destruct (normalize_extensions_elements ["..Py."; "  "] ".py")
    as [Hiff Hshape].
  assert (".py" ∈ _normalize_extensions (Some ["..Py."; "  "])) as Hin.
  { apply Hiff. exists "..Py.". split; [constructor|]. split; [|reflexivity].
    vm_compute. discriminate. }
  split; [exact Hin|]. apply (Hshape Hin).
Defined.

(** ** InteractiveSelector *)

Lemma add_exclusions_spec exts cur :
  exists n, add_exclusions exts cur = (cur ∪ exts, n)
            /\ 0 <= n /\ (n = 0 <-> exts ⊆ cur).
Proof.
  unfold add_exclusions.
  apply (set_fold_ind_L
    (fun r X => exists n, r = (cur ∪ X, n) /\ 0 <= n /\ (n = 0 <-> X ⊆ cur))).
  - exists 0. split; [f_equal; set_solver|]. split; [lia|]. set_solver.
  - intros x X r Hx (n & -> & Hn & Hiff). case_bool_decide as Hin.
    + exists (n + 1). split; [f_equal; set_solver|]. split; [lia|].
      split; [lia|]. intros Hsub. exfalso. set_solver.
    + exists n. split; [f_equal; set_solver|]. split; [done|].
      rewrite Hiff. set_solver.
Qed.

Lemma rebuild_spec initial excl :
  exists out,
    _rebuild_selectable_list initial excl
    = (out, imap fresh_entry (displayed initial excl), displayed initial excl).
Proof.
  unfold _rebuild_selectable_list. fold (displayed initial excl).
  destruct (displayed initial excl) as [|p l] eqn:Hd; eauto.
Qed.

Lemma fresh_entries_paths l : path_obj <$> imap fresh_entry l = l.
Proof.
  apply list_eq. intros k.
  rewrite list_lookup_fmap, list_lookup_imap. by destruct (l !! k).
Qed.

Lemma fresh_entries_lookup l (k : nat) f :
  imap fresh_entry l !! k = Some f ->
  id f = Z.of_nat k + 1 /\ selected f = true /\ l !! k = Some (path_obj f).
Proof.
  rewrite list_lookup_imap. destruct (l !! k) as [p|]; [|done].
  simpl. by intros [= <-].
Qed.

Lemma toggle_ids_keeps ids (fs : list f_info) :
  path_obj <$> (toggle_ids ids fs).1.1 = path_obj <$> fs
  /\ id <$> (toggle_ids ids fs).1.1 = id <$> fs.
Proof.
  induction fs as [|f fs [IH1 IH2]]; simpl; [done|].
  destruct (toggle_ids ids fs) as [[fs' out] valid]. simpl in *.
  case_bool_decide; simpl; split; by f_equal.
Qed.

Lemma set_selected_keeps b (fs : list f_info) :
  path_obj <$> (set_selected b <$> fs) = path_obj <$> fs
  /\ id <$> (set_selected b <$> fs) = id <$> fs.
Proof. by rewrite <- !list_fmap_compose. Qed.

(** *** Exclude lines *)

Lemma prefix_app p s : String.prefix p s = true -> exists r, s = p +:+ r.
Proof.
  revert s. induction p as [|a p IH]; intros s.
  - exists s. done.
  - destruct s as [|b s]; simpl; [done|].
    destruct (ascii_dec a b) as [->|]; [|done].
    intros [r ->]%IH. by exists r.
Qed.

Lemma rstrip_by_last p s : last_not p (Py.rstrip_by p s) = true.
Proof.
  induction s as [|c s IH]; simpl; [done|].
  destruct (Py.rstrip_by p s) as [|c' r] eqn:Hr; simpl.
  - rewrite andb_true_r. by destruct (p c) eqn:Hp; simpl; [|rewrite Hp].
  - rewrite andb_false_r. done.
Qed.

Lemma last_not_lower s :
  last_not Py.isspace (Py.lower s) = last_not Py.isspace s.
Proof.
  induction s as [|c s IH]; simpl; [done|].
  destruct s as [|c' s]; simpl in *; [by rewrite isspace_lower_char|done].
Qed.

Lemma last_not_all_space s :
  s <> EmptyString -> last_not Py.isspace s = true -> all_space s = false.
Proof.
  induction s as [|c s IH]; [done|]. intros _. simpl.
  destruct s as [|c' s].
  - intros ->%negb_true_iff. done.
  - intros H. rewrite IH; [apply andb_false_r|done|done].
Qed.

Lemma split_go_nil cur s :
  Py.split_go cur s = [] -> cur = [] /\ all_space s = true.
Proof.
  revert cur. induction s as [|c s IH]; intros cur; simpl.
  - by destruct cur.
  - destruct (Py.isspace c); simpl.
    + destruct cur; [|done]. simpl. intros H. by apply IH in H as [_ ->].
    + intros H. by apply IH in H as [? _].
Qed.

Lemma exclude_line_parts text :
  Py.startswith (Py.lower (Py.strip text)) "exclude " = true ->
  (1 < length (Py.split (Py.lower (Py.strip text))))%nat.
Proof.
  intros [r Hr]%prefix_app.
  pose proof (rstrip_by_last Py.isspace (Py.lstrip_by Py.isspace text)) as Hl.
  fold (Py.strip_by Py.isspace text) in Hl. fold (Py.strip text) in Hl.
  rewrite <- last_not_lower, Hr in Hl. rewrite Hr.
  assert (all_space r = false) as Hsp.
  { destruct r as [|c r]; [done|].
    apply last_not_all_space; [done|]. exact Hl. }
  unfold Py.split. rewrite !app_cons. simpl.
  change (EmptyString +:+ r) with r.
  destruct (Py.split_go [] r) eqn:Hs; simpl; [|lia].
  apply split_go_nil in Hs as [_ Hs]. congruence.
Qed.

Lemma review_turn_exclude initial st text :
  Py.startswith (Py.lower (Py.strip text)) "exclude " = true ->
  (exclude_extensions text ⊆ current_interactive_exclusions st
   /\ review_turn initial st (Line text)
      = Continue st [OutAlreadyExcluded (exclude_extensions text)])
  \/ (exclude_extensions text ⊈ current_interactive_exclusions st
      /\ exists out,
          review_turn initial st (Line text)
          = Continue
              (rebuilt initial
                 (current_interactive_exclusions st ∪ exclude_extensions text))
              out).
Proof.
  intros Hex. pose proof (exclude_line_parts text Hex) as Hparts.
  unfold review_turn, exclude_extensions. cbv zeta.
  rewrite Hex. rewrite (bool_decide_eq_true_2 _ Hparts).
  destruct (prefix_app _ _ Hex) as [r Hr]. rewrite Hr.
  rewrite !app_cons. cbn [Py.is_empty orb].
  rewrite !bool_decide_eq_false_2 by discriminate.
  rewrite <- !app_cons.
  set (exts := _normalize_extensions _).
  destruct (add_exclusions_spec exts (current_interactive_exclusions st))
    as (n & -> & Hn & Hiff).
  destruct (Z.ltb_spec 0 n) as [Hpos|Hzero].
  - right. split; [rewrite <- Hiff; lia|].
    destruct (rebuild_spec initial (current_interactive_exclusions st ∪ exts))
      as [out ->]. eauto.
  - left. assert (exts ⊆ current_interactive_exclusions st) as Hsub
      by (apply Hiff; lia).
    split; [done|]. f_equal. destruct st as [cur fs shown]. simpl in *.
    f_equal. set_solver.
Qed.

(** A turn that goes on either leaves the exclusions, the files listed and
    their ids as they were, or is an [exclude] that adds extensions and
    rebuilds the list. *)
Lemma review_turn_continue initial st a st' out :
  review_turn initial st a = Continue st' out ->
  (current_interactive_exclusions st' = current_interactive_exclusions st
   /\ path_obj <$> selectable_files st' = path_obj <$> selectable_files st
   /\ id <$> selectable_files st' = id <$> selectable_files st
   /\ current_shown_files st' = current_shown_files st)
  \/ (exists text,
        a = Line text
        /\ exclude_extensions text ⊈ current_interactive_exclusions st
        /\ st' = rebuilt initial
                   (current_interactive_exclusions st ∪ exclude_extensions text)).
Proof.
  destruct a as [text|]; [|done].
  destruct (Py.startswith (Py.lower (Py.strip text)) "exclude ") eqn:Hex.
  - destruct (review_turn_exclude initial st text Hex)
      as [[Hsub ->]|[Hns [o ->]]]; intros [= <- <-]; [by left|].
    right. by exists text.
  - unfold review_turn. cbv zeta. rewrite Hex. intros H. left.
    destruct (_ || _); [done|].
    repeat (case_bool_decide; [by (done || injection H as <- <-;
      simpl; pose proof (set_selected_keeps true (selectable_files st));
      pose proof (set_selected_keeps false (selectable_files st));
      naive_solver)|]).
    destruct (parse_ids _) as [ids|]; [|by injection H as <- <-].
    pose proof (toggle_ids_keeps ids (selectable_files st)) as [? ?].
    destruct (toggle_ids _ _) as [[fs o] valid].
    injection H as <- <-. done.
Qed.

Lemma rebuilt_paths initial excl :
  path_obj <$> selectable_files (rebuilt initial excl) = displayed initial excl.
Proof. apply fresh_entries_paths. Qed.

Lemma initial_session_rebuilt initial :
  exists out, initial_session initial = (out, rebuilt initial ∅).
Proof.
  unfold initial_session.
  destruct (rebuild_spec initial ∅) as [out ->]. by exists out.
Qed.

Lemma session_ok_rebuilt initial excl :
  EmptyString ∉ excl -> session_ok initial (rebuilt initial excl).
Proof. intros H. split; [done|]. split; [apply rebuilt_paths|done]. Qed.

Lemma review_turn_ok initial st a st' out :
  session_ok initial st ->
  review_turn initial st a = Continue st' out ->
  session_ok initial st'.
Proof.
  intros (Hne & Hp & Hs) H.
  destruct (review_turn_continue _ _ _ _ _ H)
    as [(He & Hp' & _ & Hs')|(text & -> & _ & ->)].
  - unfold session_ok. by rewrite He, Hp', Hs'.
  - apply session_ok_rebuilt. rewrite not_elem_of_union. split; [done|].
    unfold exclude_extensions. intros Hin.
    by apply normalized_extension_shape in Hin as [? _].
Qed.

Lemma review_loop_ok initial actions st out st' out' :
  session_ok initial st ->
  review_loop initial st out actions = Reviewing st' out' ->
  session_ok initial st'.
Proof.
  revert st out. induction actions as [|a actions IH]; intros st out Hok; simpl.
  - by intros [= <- _].
  - destruct (review_turn initial st a) as [st1 out1| |] eqn:Ht; [|done|done].
    apply IH. by eapply review_turn_ok.
Qed.

Lemma displayed_no_suffix initial excl p :
  p ∈ initial -> path_suffix p = EmptyString -> EmptyString ∉ excl ->
  p ∈ displayed initial excl.
Proof.
  intros Hp Hs Hne. unfold displayed.
  apply list_elem_of_In, filter_In. split; [by apply list_elem_of_In|].
  rewrite Hs. simpl. by apply bool_decide_eq_true_2.
Qed.

(** C7. A turn of the review loop after which the exclusion set differs
    has made it grow, and leaves the list rebuilt from the original
    candidate list filtered by the whole new exclusion set, whatever the
    list was before: the paths are the original ones not excluded, in
    order, the ids are 1..k in order, and every entry is selected. *)
Theorem exclusion_growth_rebuilds_from_original
    (initial : list Path) (st : session) (a : user_action)
    (st' : session) (out : list output) :
  review_turn initial st a = Continue st' out ->
  current_interactive_exclusions st' <> current_interactive_exclusions st ->
  current_interactive_exclusions st ⊂ current_interactive_exclusions st'
  /\ path_obj <$> selectable_files st'
     = displayed initial (current_interactive_exclusions st')
  /\ current_shown_files st'
     = displayed initial (current_interactive_exclusions st')
  /\ (forall (k : nat) (f : f_info),
        selectable_files st' !! k = Some f ->
        id f = Z.of_nat k + 1 /\ selected f = true)
  /\ length (selectable_files st')
     = length (displayed initial (current_interactive_exclusions st')).
Proof.
  intros H Hgrow.
  destruct (review_turn_continue _ _ _ _ _ H)
    as [(He & _)|(text & -> & Hns & ->)]; [done|].
  split; [set_solver|]. split; [apply rebuilt_paths|]. split; [done|].
  split.
  - intros k f Hk. apply fresh_entries_lookup in Hk. tauto.
  - simpl. apply length_imap.
Qed.

Lemma exclusion_growth_rebuilds_from_original_witness :
  review_turn sample_files (rebuilt sample_files ∅) (Line "exclude .py")
  = Continue (rebuilt sample_files {[ ".py" ]})
      [OutAdded {[ ".py" ]}; OutUpdatedList ["src/b.js"; "Dockerfile"]]
  /\ path_obj <$> selectable_files (rebuilt sample_files {[ ".py" ]})
     = displayed sample_files {[ ".py" ]}.
Proof.
  assert (review_turn sample_files (rebuilt sample_files ∅)
            (Line "exclude .py")
          = Continue (rebuilt sample_files {[ ".py" ]})
              [OutAdded {[ ".py" ]};
               OutUpdatedList ["src/b.js"; "Dockerfile"]]) as H
    by (vm_compute; reflexivity).
  split; [exact H|].
  destruct (exclusion_growth_rebuilds_from_original _ _ _ _ _ H)
    as (_ & Hpaths & _); [|exact Hpaths].
  vm_compute. discriminate.
Defined.

(** C8. An [exclude] line whose extensions are all excluded already
    leaves the session as it is (exclusion set, entries, ids and flags)
    and only reports them as already excluded, without a rebuild; so an
    [exclude] line given a second time changes nothing. *)
Theorem exclude_twice_is_idempotent
    (initial : list Path) (st : session) (text : string) :
  Py.startswith (Py.lower (Py.strip text)) "exclude " = true ->
  (exclude_extensions text ⊆ current_interactive_exclusions st ->
   review_turn initial st (Line text)
   = Continue st [OutAlreadyExcluded (exclude_extensions text)])
  /\ (exists st1 out1,
        review_turn initial st (Line text) = Continue st1 out1
        /\ review_turn initial st1 (Line text)
           = Continue st1 [OutAlreadyExcluded (exclude_extensions text)]).
Proof.
  intros Hex. split.
  - intros Hsub.
    by destruct (review_turn_exclude initial st text Hex) as [[_ ->]|[Hns _]].
  - destruct (review_turn_exclude initial st text Hex)
      as [[Hsub Heq]|[Hns [o Heq]]]; rewrite Heq.
    + eexists _, _. split; [done|]. by rewrite Heq.
    + eexists _, _. split; [done|].
      destruct (review_turn_exclude initial
        (rebuilt initial
           (current_interactive_exclusions st ∪ exclude_extensions text))
        text Hex) as [[_ ->]|[Hns' _]]; [done|].
      exfalso. apply Hns'. simpl. set_solver.
Qed.

Lemma exclude_twice_is_idempotent_witness :
  review_turn sample_files (rebuilt sample_files {[ ".py" ]})
    (Line "exclude .py")
  = Continue (rebuilt sample_files {[ ".py" ]})
      [OutAlreadyExcluded (exclude_extensions "exclude .py")].
Proof.
  apply (exclude_twice_is_idempotent sample_files
           (rebuilt sample_files {[ ".py" ]}) "exclude .py");
    [reflexivity|].
  assert (exclude_extensions "exclude .py" = {[ ".py" ]}) as ->
    by (vm_compute; reflexivity).
  done.
Defined.

(** C9. An input line that is none of the keywords and has a token that
    is not an integer is answered with the usage message and leaves the
    session as it is: no flag flips, also not for the integers on the same
    line, and the exclusion set stays. *)
Theorem non_integer_input_rejected
    (initial : list Path) (st : session) (text : string) :
  recognized_keyword (Py.lower (Py.strip text)) = false ->
  (exists tok, tok ∈ Py.split (Py.lower (Py.strip text)) /\ Py.int tok = None) ->
  review_turn initial st (Line text) = Continue st [OutInvalidInput].
Proof.
  unfold recognized_keyword. rewrite !orb_false_iff.
  intros ((((((He & Hd) & Hc) & Hx) & Hl) & Ha) & Hn) (tok & Htok & Hint).
  unfold review_turn. cbv zeta. rewrite He, Hd, Hc, Hx, Hl, Ha, Hn. simpl.
  assert (parse_ids (Py.lower (Py.strip text)) = None) as ->; [|done].
  unfold parse_ids.
  assert (mapM Py.int (Py.split (Py.lower (Py.strip text))) = None) as ->; [|done].
  apply mapM_None, Exists_exists. eauto.
Qed.

Lemma non_integer_input_rejected_witness :
  review_turn sample_files (rebuilt sample_files ∅) (Line "1 x")
  = Continue (rebuilt sample_files ∅) [OutInvalidInput].
Proof.
  apply non_integer_input_rejected; [reflexivity|].
  exists "x". split; [|reflexivity].
  apply list_elem_of_In. vm_compute. auto.
Defined.

(** C10. Normalization never yields the empty string, so the exclusion
    set of a session never holds it, and a candidate file without suffix
    stays in the displayed list whatever the user enters. *)
Theorem extensionless_file_never_excluded
    (initial : list Path) (actions : list user_action) (p : Path)
    (st : session) (out : list output) :
  p ∈ initial ->
  path_suffix p = EmptyString ->
  review_and_filter_files_interactive initial actions = Reviewing st out ->
  (forall extensions, EmptyString ∉ _normalize_extensions extensions)
  /\ (EmptyString ∉ current_interactive_exclusions st)
  /\ (p ∈ path_obj <$> selectable_files st)
  /\ (p ∈ current_shown_files st).
Proof.
  intros Hp Hs Hrun.
  split.
  { intros exts Hin. by apply normalized_extension_shape in Hin as [? _]. }
  assert (session_ok initial st) as (Hne & Hpaths & Hshown).
  { unfold review_and_filter_files_interactive in Hrun.
    destruct initial as [|p0 initial]; [done|].
    destruct (initial_session_rebuilt (p0 :: initial)) as [o Hinit].
    rewrite Hinit in Hrun.
    destruct (selectable_files _); [done|].
    eapply review_loop_ok; [|exact Hrun].
    apply session_ok_rebuilt. set_solver. }
  split; [done|]. rewrite Hpaths, Hshown.
  split; by apply displayed_no_suffix.
Qed.

Lemma extensionless_file_never_excluded_witness :
  ["Dockerfile"]
  ∈ match review_and_filter_files_interactive sample_files
            [Line "exclude .py"; Line "exclude JS ."; Line "2"] with
    | Reviewing st _ => current_shown_files st
    | _ => []
    end.
Proof.
  destruct (review_and_filter_files_interactive sample_files
              [Line "exclude .py"; Line "exclude JS ."; Line "2"])
    as [fs| |st out] eqn:H; [vm_compute in H; discriminate..|].
  apply (extensionless_file_never_excluded sample_files
           [Line "exclude .py"; Line "exclude JS ."; Line "2"]
           ["Dockerfile"] st out); [|reflexivity|exact H].
  apply list_elem_of_In. vm_compute. auto.
Defined.

(** ** Discoverer *)

(** Induction on a directory tree, with the hypothesis for every
    sub-directory. *)
Lemma tree_nested_ind (P : tree -> Prop) :
  (forall subdirs files,
      Forall (fun d => P (snd d)) subdirs -> P (Dir subdirs files)) ->
  forall t, P t.
Proof.
  intros HDir. fix IH 1. intros [subdirs files]. apply HDir.
  induction subdirs as [|d subdirs IHsub]; constructor; [apply IH|exact IHsub].
Qed.

(** Every directory the walk visits is reached through names that [keep]
    retains. *)
Lemma walk_dirpath keep t :
  forall dirpath visited,
    In visited (walk keep dirpath t) ->
    exists segs, visited.1.1 = dirpath ++ segs
                 /\ Forall (fun seg => keep seg = true) segs.
Proof.
  induction t as [subdirs files IH] using tree_nested_ind.
  intros dirpath visited. simpl. intros [<-|Hin].
  - exists []. by rewrite app_nil_r.
  - apply in_flat_map in Hin as ([d sub] & Hd & Hin). simpl in Hin.
    destruct (keep d) eqn:Hk; [|done].
    rewrite Forall_forall in IH.
    apply list_elem_of_In in Hd.
    destruct (IH _ Hd _ _ Hin) as (segs & Heq & Hsegs).
    exists (d :: segs). split; [by rewrite Heq, <- app_assoc|].
    by constructor.
Qed.

Lemma is_excluded_false_parts p exts pats seg :
  is_excluded p exts pats = false ->
  seg ∈ removelast p -> Py.lower seg ∉ pats.
Proof.
  unfold is_excluded.
  destruct (bool_decide (_ ∈ exts)); [done|].
  destruct (bool_decide (_ ∈ pats)); [done|].
  intros Hex Hseg Hin.
  assert (existsb (fun part => bool_decide (Py.lower part ∈ pats))
            (removelast p) = true); [|congruence].
  apply existsb_exists. exists seg.
  split; [by apply list_elem_of_In|]. by apply bool_decide_eq_true_2.
Qed.

(** C4. No file the Discoverer returns has, between the root and its own
    name, a path segment whose lowercase form is an exclusion pattern
    (defaults and caller additions); and the walk never enters such a
    directory: every directory it visits is reached through names that are
    not excluded. *)
Theorem discovered_files_avoid_excluded_dirs
    (root : tree)
    (include_ext_cli exclude_ext_cli exclude_files_cli : option (list string)) :
  (forall (p : Path) (seg : string),
      p ∈ discover_code_files root include_ext_cli exclude_ext_cli
            exclude_files_cli ->
      seg ∈ removelast p ->
      Py.lower seg ∉ current_excluded_patterns exclude_files_cli)
  /\ (forall (dirpath : Path) (dirnames filenames : list string) (seg : string),
        (dirpath, dirnames, filenames)
        ∈ walk (fun d => negb (_should_prune_dir d
                                 (current_excluded_patterns exclude_files_cli)))
            [] root ->
        seg ∈ dirpath ->
        Py.lower seg ∉ current_excluded_patterns exclude_files_cli).
Proof.
  split.
  - intros p seg Hp Hseg. unfold discover_code_files in Hp.
    apply list_elem_of_In, in_flat_map in Hp as ([[dirpath dirnames] filenames] & _ & Hp).
    apply filter_In in Hp as [_ Hp].
    apply andb_true_iff in Hp as [Hp _]. apply negb_true_iff in Hp.
    by eapply is_excluded_false_parts.
  - intros dirpath dirnames filenames seg Hv Hseg.
    apply list_elem_of_In, walk_dirpath in Hv as (segs & Heq & Hsegs).
    simpl in Heq. subst dirpath.
    rewrite Forall_forall in Hsegs. specialize (Hsegs _ Hseg).
    apply negb_true_iff in Hsegs. unfold _should_prune_dir in Hsegs.
    by apply bool_decide_eq_false_1 in Hsegs.
Qed.

Lemma discovered_files_avoid_excluded_dirs_witness :
  discover_code_files sample_tree None None None = [["a.py"]; ["src"; "m.py"]]
  /\ (Py.lower "src" ∉ current_excluded_patterns None).
Proof.
  assert (discover_code_files sample_tree None None None
          = [["a.py"]; ["src"; "m.py"]]) as H by (vm_compute; reflexivity).
  split; [exact H|].
  destruct (discovered_files_avoid_excluded_dirs sample_tree None None None)
    as [Hfiles _].
  apply (Hfiles ["src"; "m.py"] "src").
  - rewrite H. apply list_elem_of_In. simpl. auto.
  - apply list_elem_of_In. simpl. auto.
Defined.

(** ** ReportAggregator *)

Lemma app_empty_r s : s +:+ EmptyString = s.
Proof. induction s as [|c s IH]; [done|]. by rewrite app_cons, IH. Qed.

Lemma str_app_assoc s1 s2 s3 : (s1 +:+ s2) +:+ s3 = s1 +:+ s2 +:+ s3.
Proof. induction s1 as [|c s1 IH]; [done|]. by rewrite !app_cons, IH. Qed.

Lemma join_app l1 l2 : Py.join (l1 ++ l2) = Py.join l1 +:+ Py.join l2.
Proof.
  induction l1 as [|s l1 IH]; [done|].
  change (Py.join ((s :: l1) ++ l2)) with (s +:+ Py.join (l1 ++ l2)).
  change (Py.join (s :: l1)) with (s +:+ Py.join l1).
  by rewrite IH, str_app_assoc.
Qed.

Lemma join_snoc l s : Py.join (l ++ [s]) = Py.join l +:+ s.
Proof.
  rewrite join_app. change (Py.join [s]) with (s +:+ EmptyString).
  by rewrite app_empty_r.
Qed.

Lemma prefix_self_app s r : String.prefix s (s +:+ r) = true.
Proof.
  induction s as [|c s IH]; [by destruct r|].
  rewrite app_cons. simpl. by destruct (ascii_dec c c).
Qed.

Lemma contains_app_r sub s1 s2 :
  Py.contains sub s2 = true -> Py.contains sub (s1 +:+ s2) = true.
Proof.
  intros H. induction s1 as [|c s1 IH]; [done|].
  rewrite app_cons. simpl. rewrite IH. apply orb_true_r.
Qed.

Lemma contains_prefix sub s :
  String.prefix sub s = true -> Py.contains sub s = true.
Proof. intros H. destruct s; simpl in *; by rewrite H. Qed.

Lemma contains_suffix sub s : Py.contains sub (s +:+ sub) = true.
Proof.
  apply contains_app_r, contains_prefix.
  rewrite <- (app_empty_r sub) at 2. apply prefix_self_app.
Qed.

Lemma report_finding_not_actionable acc f :
  actionable f = false ->
  actionable_findings_count (report_finding acc f)
  = actionable_findings_count acc.
Proof.
  unfold actionable, report_finding. intros ->.
  by destruct (Py.contains error_marker f).
Qed.

Lemma fold_report_no_actionable findings acc :
  Forall (fun f => actionable f = false) findings ->
  actionable_findings_count (fold_left report_finding findings acc)
  = actionable_findings_count acc.
Proof.
  intros H. revert acc. induction H as [|f fs Hf _ IH]; intros acc; [done|].
  simpl. by rewrite IH, report_finding_not_actionable.
Qed.

Lemma some_finding_without_error_spec findings :
  some_finding_without_error findings = true <->
  exists f, f ∈ findings /\ f <> EmptyString
            /\ Py.contains error_marker f = false.
Proof.
  unfold some_finding_without_error. rewrite existsb_exists. split.
  - intros (f & [Hin Ht]%filter_In & Hc). exists f.
    split; [by apply list_elem_of_In|]. split; [by destruct f|].
    by apply negb_true_iff.
  - intros (f & Hin & Hne & Hc). exists f. split.
    + apply filter_In. split; [by apply list_elem_of_In|]. by destruct f.
    + by rewrite Hc.
Qed.

Lemma all_errors_no_finding_without_error findings :
  Forall (fun f => Py.contains error_marker f = true) findings ->
  some_finding_without_error findings = false.
Proof.
  intros H. apply not_true_is_false.
  intros (f & Hin & _ & Hc)%some_finding_without_error_spec.
  rewrite Forall_forall in H. specialize (H f Hin). congruence.
Qed.

(** C6, as stated, fails. A findings list with a single error entry is
    not empty and has no actionable entry, yet neither report holds the
    statement that the content was reviewed and nothing critical found. *)
Lemma all_errors_report_lacks_statement :
  actionable "Error: boom" = false
  /\ Py.contains reviewed_nothing_critical_msg
       (generate_report "T" ["Error: boom"]).1 = false
  /\ Py.contains reviewed_nothing_critical_msg
       (generate_report "T" ["Error: boom"]).2 = false.
Proof. vm_compute. repeat split. Qed.

(** C6, amended. For a findings list without actionable entry in which at
    least one entry does not carry the error marker, both reports hold the
    statement that the content was reviewed and nothing critical found.
    For a non-empty list whose entries all carry the error marker nothing
    is added after the entries. *)
Theorem reviewed_nothing_critical_reported
    (report_title : string) (findings : list string) :
  (Forall (fun f => actionable f = false) findings ->
   (exists f, f ∈ findings /\ Py.contains error_marker f = false) ->
   Py.contains reviewed_nothing_critical_msg
     (generate_report report_title findings).1 = true
   /\ Py.contains reviewed_nothing_critical_msg
        (generate_report report_title findings).2 = true)
  /\ (findings <> [] ->
      Forall (fun f => Py.contains error_marker f = true) findings ->
      generate_report report_title findings
      = (Py.join (md_content_parts
                    (fold_left report_finding findings
                       (report_head report_title))),
         Py.join (txt_content_parts
                    (fold_left report_finding findings
                       (report_head report_title))))).
Proof.
  split.
  - intros Hna (f & Hin & Hc).
    assert (some_finding_without_error findings = true) as Hsome.
    { apply some_finding_without_error_spec. exists f. split; [done|].
      split; [|done]. intros ->.
      rewrite Forall_forall in Hna. specialize (Hna _ Hin).
      vm_compute in Hna. discriminate. }
    unfold generate_report.
    destruct findings as [|f0 fs]; [by apply elem_of_nil in Hin|].
    rewrite fold_report_no_actionable by done. rewrite Hsome.
    cbn [report_head actionable_findings_count Z.eqb andb append_msg
         md_content_parts txt_content_parts fst snd].
    rewrite !join_snoc. split; apply contains_suffix.
  - intros Hne Herr. unfold generate_report.
    destruct findings as [|f0 fs]; [done|].
    by rewrite all_errors_no_finding_without_error, andb_false_r.
Qed.

Lemma reviewed_nothing_critical_reported_witness :
  Py.contains reviewed_nothing_critical_msg
    (generate_report "T"
       ["Error: boom";
        "No critical security vulnerabilities identified in this snippet."]).1
  = true.
Proof.
  destruct (reviewed_nothing_critical_reported "T"
    ["Error: boom";
     "No critical security vulnerabilities identified in this snippet."])
    as [Hsome _].
  apply Hsome.
  - repeat constructor.
  - exists "No critical security vulnerabilities identified in this snippet.".
    split; [|reflexivity]. apply list_elem_of_In. simpl. auto.
Defined.

(* ================================================================= *)
(** * Further properties *)

(** ** More on the Chunker *)

(** X1. For a positive chunk size no chunk is empty and no chunk is
    longer than the chunk size. *)
Theorem chunk_content_chunk_sizes (C : string) (S : Z) (c : string) :
  0 < S -> c ∈ chunk_content C S -> 0 < Py.len c <= S.
Proof.
  intros HS. rewrite chunk_content_pos by done.
  intros (x & -> & Hx)%list_elem_of_fmap.
  apply list_elem_of_lookup in Hx as [k Hk]. apply range_go_lookup in Hk.
  unfold Py.len, Py.slice in *.
  rewrite <- chars_length, chars_substring.
  rewrite length_take, length_drop, chars_length. lia.
Qed.

Lemma chunk_content_chunk_sizes_witness : 0 < Py.len "g" <= 3.
Proof.
  apply (chunk_content_chunk_sizes "abcdefg" 3 "g"); [lia|].
  apply list_elem_of_In. vm_compute. auto.
Defined.

(** X2. A non-empty content that is not longer than the chunk size is its
    own single chunk. *)
Theorem chunk_content_fits_one_chunk (C : string) (S : Z) :
  0 < Py.len C <= S -> chunk_content C S = [C].
Proof.
  intros [Hpos Hle]. rewrite chunk_content_pos by lia.
  destruct (Z.to_nat (Py.len C)) as [|fuel] eqn:Hfuel; [lia|].
  simpl. destruct (Z.ltb_spec 0 (Py.len C)); [|lia].
  assert (Py.range_go fuel (0 + S) (Py.len C) S = []) as ->.
  { destruct fuel; simpl; [done|]. destruct (Z.ltb_spec (0 + S) (Py.len C)); [lia|done]. }
  simpl. f_equal. apply chars_inj. unfold Py.slice.
  rewrite chars_substring. simpl. apply take_ge.
  rewrite chars_length. unfold Py.len in Hle. lia.
Qed.

Lemma chunk_content_fits_one_chunk_witness : chunk_content "abc" 5 = ["abc"].
Proof.
  apply chunk_content_fits_one_chunk. vm_compute.
  split; [reflexivity|discriminate].
Defined.

(** ** More on the scan loop *)

Lemma would_exceed_unlimited m t n : m <= 0 -> would_exceed m t n = false.
Proof.
  intros H. unfold would_exceed. destruct (Z.ltb_spec 0 m); [lia|done].
Qed.

Lemma limit_reached_unlimited m t : m <= 0 -> limit_reached m t = false.
Proof.
  intros H. unfold limit_reached. destruct (Z.ltb_spec 0 m); [lia|done].
Qed.

Section ScanMore.
Variable analyze : nat -> string -> string -> string.
Variables cs max : Z.

Lemma send_chunk_sent rel k n c st :
  sent_chunks (events (send_chunk analyze rel k n c st))
  = sent_chunks (events st) ++ [c].
Proof. unfold send_chunk. cbn [events]. by rewrite sent_chunks_app. Qed.

Lemma log_sent e st :
  sent_chunks [e] = [] ->
  sent_chunks (events (log e st)) = sent_chunks (events st).
Proof.
  intros He. unfold log. cbn [events].
  by rewrite sent_chunks_app, He, app_nil_r.
Qed.

Lemma scan_chunks_unlimited nf i rel n k chunks st :
  max <= 0 ->
  sent_chunks (events (scan_chunks analyze max nf i rel n k chunks st))
  = sent_chunks (events st)
    ++ List.filter (fun c => negb (is_blank c)) chunks.
Proof.
  intros Hm. revert k st.
  induction chunks as [|c chunks IH]; intros k st; simpl.
  - by rewrite app_nil_r.
  - destruct (is_blank c); simpl; [apply IH|].
    rewrite would_exceed_unlimited, limit_reached_unlimited by done.
    rewrite IH, send_chunk_sent, <- app_assoc. done.
Qed.

Lemma scan_files_unlimited nf i files st :
  max <= 0 ->
  sent_chunks (events (scan_files analyze cs max nf i files st))
  = sent_chunks (events st) ++ flat_map (file_chunks cs) files.
Proof.
  intros Hm. revert i st.
  induction files as [|[p r] files IH]; intros i st; simpl.
  - by rewrite app_nil_r.
  - unfold file_chunks at 1. simpl. destruct r as [content|reason].
    + destruct (is_blank content); [by rewrite IH, log_sent|].
      rewrite would_exceed_unlimited, limit_reached_unlimited by done.
      by rewrite IH, scan_chunks_unlimited, <- app_assoc.
    + rewrite IH. cbn [events]. by rewrite sent_chunks_app, app_nil_r.
Qed.

(** Where the chunks sent come from. *)
Lemma scan_chunks_sent_from nf i rel n k chunks st c :
  c ∈ sent_chunks (events (scan_chunks analyze max nf i rel n k chunks st)) ->
  c ∈ sent_chunks (events st) \/ (c ∈ chunks /\ is_blank c = false).
Proof.
  revert k st. induction chunks as [|c0 chunks IH]; intros k st; simpl; [by left|].
  destruct (is_blank c0) eqn:Hb.
  { intros [?|[? ?]]%IH; [by left|right]. split; [by right|done]. }
  destruct (would_exceed _ _ _); [rewrite log_sent by done; by left|].
  assert (c ∈ sent_chunks (events (send_chunk analyze rel k n c0 st)) ->
          c ∈ sent_chunks (events st) ∨ c ∈ c0 :: chunks ∧ is_blank c = false)
    as Hsent.
  { rewrite send_chunk_sent. intros [?|Hc]%elem_of_app; [by left|right].
    apply list_elem_of_singleton in Hc as ->. split; [by left|done]. }
  destruct (limit_reached _ _).
  - case_bool_decide; [rewrite log_sent by done|]; exact Hsent.
  - intros [?|[? ?]]%IH; [by apply Hsent|right]. split; [by right|done].
Qed.

Lemma scan_files_sent_from nf i files st c :
  c ∈ sent_chunks (events (scan_files analyze cs max nf i files st)) ->
  c ∈ sent_chunks (events st)
  \/ (is_blank c = false
      /\ exists p content,
           (p, ReadOk content) ∈ files /\ is_blank content = false
           /\ c ∈ chunk_content content cs).
Proof.
  revert i st. induction files as [|[p r] files IH]; intros i st; simpl; [by left|].
  assert (forall st', (c ∈ sent_chunks (events st') -> c ∈ sent_chunks (events st)) ->
     c ∈ sent_chunks (events (scan_files analyze cs max nf (S i) files st')) ->
     c ∈ sent_chunks (events st)
     ∨ is_blank c = false
       ∧ (∃ p0 content, (p0, ReadOk content) ∈ (p, r) :: files
            ∧ is_blank content = false ∧ c ∈ chunk_content content cs)) as Hrest.
  { intros st' Hst' [?|(? & p0 & content & ? & ? & ?)]%IH; [left; by apply Hst'|right].
    split; [done|]. exists p0, content. split; [by right|done]. }
  destruct r as [content|reason].
  - destruct (is_blank content) eqn:Hb.
    { apply Hrest. by rewrite log_sent. }
    destruct (would_exceed _ _ _).
    { apply Hrest. by rewrite log_sent. }
    assert (forall st', st' = scan_chunks analyze max nf i (path_str p)
                (length (chunk_content content cs)) 0
                (chunk_content content cs) st ->
            c ∈ sent_chunks (events st') ->
            c ∈ sent_chunks (events st)
            ∨ is_blank c = false
              ∧ (∃ p0 content0, (p0, ReadOk content0) ∈ (p, ReadOk content) :: files
                   ∧ is_blank content0 = false ∧ c ∈ chunk_content content0 cs))
      as Hhere.
    { intros st' -> [?|[? ?]]%scan_chunks_sent_from; [by left|right].
      split; [done|]. exists p, content. split; [by left|done]. }
    destruct (limit_reached _ _); [by apply Hhere|].
    intros [?|(? & p0 & content0 & ? & ? & ?)]%IH; [by eapply Hhere|right].
    split; [done|]. exists p0, content0. split; [by right|done].
  - apply Hrest. cbn [events]. by rewrite sent_chunks_app, app_nil_r.
Qed.

Lemma send_chunk_findings rel k n c st :
  findings_nonempty st -> findings_nonempty (send_chunk analyze rel k n c st).
Proof.
  unfold findings_nonempty, send_chunk. cbn [all_llm_findings]. intros H.
  destruct (analyze _ _ _) eqn:Hr; simpl; [done|].
  apply Forall_app. split; [done|]. by repeat constructor.
Qed.

Lemma scan_chunks_findings nf i rel n k chunks st :
  findings_nonempty st ->
  findings_nonempty (scan_chunks analyze max nf i rel n k chunks st).
Proof.
  revert k st. induction chunks as [|c chunks IH]; intros k st Hst; simpl; [done|].
  destruct (is_blank c); [by apply IH|].
  destruct (would_exceed _ _ _); [done|].
  pose proof (send_chunk_findings rel k n c st Hst).
  destruct (limit_reached _ _); [|by apply IH].
  by case_bool_decide.
Qed.

Lemma scan_files_findings nf i files st :
  findings_nonempty st ->
  findings_nonempty (scan_files analyze cs max nf i files st).
Proof.
  revert i st. induction files as [|[p r] files IH]; intros i st Hst; simpl; [done|].
  destruct r as [content|reason].
  - destruct (is_blank content); [by apply IH|].
    destruct (would_exceed _ _ _); [by apply IH|].
    pose proof (scan_chunks_findings nf i (path_str p)
      (length (chunk_content content cs)) 0 (chunk_content content cs) st Hst).
    destruct (limit_reached _ _); [done|by apply IH].
  - apply IH. unfold findings_nonempty. cbn [all_llm_findings].
    apply Forall_app. split; [done|]. by repeat constructor.
Qed.

End ScanMore.

(** X3. With a budget of zero or less nothing limits the scan: it sends
    every non-blank chunk of every readable, non-blank file, in order, and
    the running total is their total length. *)
Theorem unlimited_scan_sends_every_chunk
    (analyze : nat -> string -> string -> string) (cs max : Z)
    (files : list (Path * read_result)) :
  max <= 0 ->
  sent_chunks (events (scan analyze cs max files))
  = flat_map (file_chunks cs) files
  /\ total_chars_processed (scan analyze cs max files)
     = sum_len (flat_map (file_chunks cs) files).
Proof.
  intros Hm.
  assert (sent_chunks (events (scan analyze cs max files))
          = flat_map (file_chunks cs) files) as Hsent
    by (unfold scan; by rewrite scan_files_unlimited).
  split; [done|]. rewrite <- Hsent.
  apply scan_files_accounted. reflexivity.
Qed.

Lemma unlimited_scan_sends_every_chunk_witness :
  sent_chunks (events (scan (fun _ _ _ => "ok") 2 0 sample_reads))
  = flat_map (file_chunks 2) sample_reads.
Proof.
  destruct (unlimited_scan_sends_every_chunk (fun _ _ _ => "ok") 2 0
              sample_reads) as [H _]; [lia|exact H].
Defined.

(** X4. Whatever the budget, a chunk handed to the collaborator is never
    blank and is a chunk of a readable, non-blank file of the list. *)
Theorem sent_chunks_come_from_files
    (analyze : nat -> string -> string -> string) (cs max : Z)
    (files : list (Path * read_result)) (c : string) :
  c ∈ sent_chunks (events (scan analyze cs max files)) ->
  is_blank c = false
  /\ exists p content,
       (p, ReadOk content) ∈ files /\ is_blank content = false
       /\ c ∈ chunk_content content cs.
Proof.
  intros [Hc|H]%scan_files_sent_from; [|done]. by apply elem_of_nil in Hc.
Qed.

Lemma sent_chunks_come_from_files_witness :
  is_blank "ab" = false
  /\ exists p content,
       (p, ReadOk content) ∈ sample_reads /\ is_blank content = false
       /\ "ab" ∈ chunk_content content 2.
Proof.
  apply (sent_chunks_come_from_files (fun _ _ _ => "ok") 2 100 sample_reads).
  apply list_elem_of_In. vm_compute. auto.
Defined.

(** X5. No finding the scan collects is the empty string: an empty answer
    of the collaborator is not recorded. *)
Theorem scan_findings_never_empty
    (analyze : nat -> string -> string -> string) (cs max : Z)
    (files : list (Path * read_result)) :
  Forall (fun f => f <> EmptyString)
    (all_llm_findings (scan analyze cs max files)).
Proof. apply scan_files_findings. constructor. Qed.

(** ** More on the Discoverer *)

Lemma discover_code_files_accepted root inc exc pats :
  discover_code_files root inc exc pats
  = flat_map (accepted_in inc exc pats)
      (walk (fun d => negb (_should_prune_dir d (current_excluded_patterns pats)))
         [] root).
Proof.
  unfold discover_code_files. apply flat_map_ext. by intros [[dirpath dirnames] filenames].
Qed.

Lemma flat_map_nil {A B} (f : A -> list B) l :
  (forall x, In x l -> f x = []) -> flat_map f l = [].
Proof.
  induction l as [|x l IH]; simpl; [done|]. intros H.
  rewrite (H x) by auto. apply IH. auto.
Qed.

Lemma filter_nil {A} (f : A -> bool) l :
  (forall x, In x l -> f x = false) -> List.filter f l = [].
Proof.
  induction l as [|x l IH]; simpl; [done|]. intros H.
  rewrite (H x) by auto. apply IH. auto.
Qed.

Lemma is_excluded_dir_segment p exts pats seg :
  seg ∈ removelast p -> Py.lower seg ∈ pats -> is_excluded p exts pats = true.
Proof.
  intros Hseg Hin. unfold is_excluded.
  destruct (bool_decide _); [done|]. destruct (bool_decide _); [done|].
  apply existsb_exists. exists seg.
  split; [by apply list_elem_of_In|]. by apply bool_decide_eq_true_2.
Qed.

(** Below an excluded directory no file passes the test. *)
Lemma accepted_below_excluded inc exc pats keep t dirpath seg :
  seg ∈ dirpath -> Py.lower seg ∈ current_excluded_patterns pats ->
  flat_map (accepted_in inc exc pats) (walk keep dirpath t) = [].
Proof.
  intros Hseg Hin. apply flat_map_nil. intros visited Hv.
  destruct (walk_dirpath keep t dirpath visited Hv) as (segs & Heq & _).
  unfold accepted_in. apply filter_nil. intros p Hp.
  apply list_elem_of_In, list_elem_of_fmap in Hp as (filename & -> & _).
  unfold accepts. rewrite (is_excluded_dir_segment _ _ _ seg); [done| |done].
  rewrite removelast_last, Heq. apply elem_of_app. by left.
Qed.

Lemma walk_pruning_transparent inc exc pats t :
  forall dirpath,
    flat_map (accepted_in inc exc pats)
      (walk (fun d => negb (_should_prune_dir d (current_excluded_patterns pats)))
         dirpath t)
    = flat_map (accepted_in inc exc pats) (walk (fun _ => true) dirpath t).
Proof.
  induction t as [subdirs files IH] using tree_nested_ind.
  intros dirpath. simpl. f_equal.
  induction IH as [|[d sub] subdirs Hd _ IHsub]; simpl; [done|].
  rewrite !flat_map_app, IHsub. f_equal.
  destruct (_should_prune_dir d _) eqn:Hp; simpl; [|apply Hd].
  symmetry. apply (accepted_below_excluded _ _ _ _ _ _ d).
  - apply elem_of_app. right. by left.
  - unfold _should_prune_dir in Hp. by apply bool_decide_eq_true_1 in Hp.
Qed.

Lemma discover_code_files_unpruned root inc exc pats :
  discover_code_files root inc exc pats = discover_unpruned root inc exc pats.
Proof.
  rewrite discover_code_files_accepted. apply walk_pruning_transparent.
Qed.

(** X6. Pruning the excluded directories does not change what is
    discovered: the result is the same list, in the same order, as over a
    walk that enters every directory. *)
Theorem pruning_does_not_change_discovery
    (root : tree)
    (include_ext_cli exclude_ext_cli exclude_files_cli : option (list string)) :
  discover_code_files root include_ext_cli exclude_ext_cli exclude_files_cli
  = discover_unpruned root include_ext_cli exclude_ext_cli exclude_files_cli.
Proof. apply discover_code_files_unpruned. Qed.

(** The files the full walk comes by are the files of the tree. *)
Lemma walk_all_sound t :
  forall dirpath visited filename,
    In visited (walk (fun _ => true) dirpath t) ->
    filename ∈ visited.2 ->
    exists q, visited.1.1 ++ [filename] = dirpath ++ q /\ tree_file t q.
Proof.
  induction t as [subdirs files IH] using tree_nested_ind.
  intros dirpath visited filename. simpl. intros [<-|Hin] Hf.
  - exists [filename]. split; [done|]. by constructor.
  - apply in_flat_map in Hin as ([d sub] & Hd & Hin). simpl in Hin.
    rewrite Forall_forall in IH. apply list_elem_of_In in Hd.
    destruct (IH _ Hd _ _ _ Hin Hf) as (q & Heq & Hq).
    exists (d :: q). split; [by rewrite Heq, <- app_assoc|].
    by econstructor.
Qed.

Lemma walk_all_complete t q :
  tree_file t q ->
  forall dirpath,
    exists visited filename,
      In visited (walk (fun _ => true) dirpath t)
      /\ filename ∈ visited.2
      /\ visited.1.1 ++ [filename] = dirpath ++ q.
Proof.
  induction 1 as [subdirs files filename Hf|subdirs files d sub p Hd _ IH];
    intros dirpath.
  - exists (dirpath, List.filter (fun _ => true) (fst <$> subdirs), files), filename.
    simpl. auto.
  - destruct (IH (dirpath ++ [d])) as (visited & filename & Hv & Hf & Heq).
    exists visited, filename. split; [|split; [done|]].
    + simpl. right. apply in_flat_map. exists (d, sub).
      split; [by apply list_elem_of_In|done].
    + by rewrite Heq, <- app_assoc.
Qed.

Lemma elem_of_discover_code_files root inc exc pats p :
  p ∈ discover_code_files root inc exc pats
  <-> tree_file root p /\ accepts inc exc pats p = true.
Proof.
  rewrite discover_code_files_unpruned. unfold discover_unpruned.
  rewrite list_elem_of_In, in_flat_map. split.
  - intros (visited & Hv & Hp). unfold accepted_in in Hp.
    apply filter_In in Hp as [Hp Hacc]. split; [|done].
    apply list_elem_of_In, list_elem_of_fmap in Hp as (filename & -> & Hf).
    destruct (walk_all_sound root [] visited filename Hv Hf) as (q & -> & Hq).
    done.
  - intros [Hfile Hacc].
    destruct (walk_all_complete root p Hfile []) as (visited & filename & Hv & Hf & Heq).
    exists visited. split; [done|]. unfold accepted_in.
    apply filter_In. split; [|done].
    apply list_elem_of_In, list_elem_of_fmap. exists filename. by split.
Qed.

(** X7. The Discoverer returns exactly the files of the tree that pass the
    file test: not excluded by suffix, name or a directory on the way, and
    relevant. *)
Theorem discovered_files_characterized
    (root : tree)
    (include_ext_cli exclude_ext_cli exclude_files_cli : option (list string))
    (p : Path) :
  p ∈ discover_code_files root include_ext_cli exclude_ext_cli
        exclude_files_cli
  <-> tree_file root p
      /\ accepts include_ext_cli exclude_ext_cli exclude_files_cli p = true.
Proof. apply elem_of_discover_code_files. Qed.

(** ** More on stripping and lowercasing *)

Lemma is_empty_lower s : Py.is_empty (Py.lower s) = Py.is_empty s.
Proof. by destruct s. Qed.

Lemma is_empty_true s : Py.is_empty s = true <-> s = EmptyString.
Proof. by destruct s. Qed.

Section StripLower.
Variable p : ascii -> bool.
Hypothesis p_lower : forall c, p (Py.lower_char c) = p c.

Lemma lstrip_by_lower s :
  Py.lstrip_by p (Py.lower s) = Py.lower (Py.lstrip_by p s).
Proof.
  induction s as [|c s IH]; simpl; [done|].
  rewrite p_lower. by destruct (p c).
Qed.

Lemma rstrip_by_lower s :
  Py.rstrip_by p (Py.lower s) = Py.lower (Py.rstrip_by p s).
Proof.
  induction s as [|c s IH]; simpl; [done|].
  rewrite p_lower, IH, is_empty_lower.
  by destruct (p c && Py.is_empty (Py.rstrip_by p s)).
Qed.

Lemma strip_by_lower s :
  Py.strip_by p (Py.lower s) = Py.lower (Py.strip_by p s).
Proof. unfold Py.strip_by. by rewrite lstrip_by_lower, rstrip_by_lower. Qed.

End StripLower.

Section StripTwice.
Variable p : ascii -> bool.

Lemma rstrip_by_idemp s :
  Py.rstrip_by p (Py.rstrip_by p s) = Py.rstrip_by p s.
Proof.
  induction s as [|c s IH]; simpl; [done|].
  destruct (p c && Py.is_empty (Py.rstrip_by p s)) eqn:Hc; simpl; [done|].
  by rewrite IH, Hc.
Qed.

(** Stripping on the right keeps a first character that is kept on the
    left. *)
Lemma lstrip_by_rstrip_by s :
  Py.lstrip_by p s = s -> Py.lstrip_by p (Py.rstrip_by p s) = Py.rstrip_by p s.
Proof.
  destruct s as [|c s]; simpl; [done|].
  destruct (p c) eqn:Hc; simpl; [|by rewrite Hc].
  intros H. exfalso.
  assert (String.length (Py.lstrip_by p s) <= String.length s)%nat as Hlen.
  { clear. induction s as [|c s IH]; simpl; [done|]. destruct (p c); simpl; lia. }
  rewrite H in Hlen. simpl in Hlen. lia.
Qed.

Lemma lstrip_by_idemp s :
  Py.lstrip_by p (Py.lstrip_by p s) = Py.lstrip_by p s.
Proof.
  induction s as [|c s IH]; simpl; [done|].
  destruct (p c) eqn:Hc; [done|]. simpl. by rewrite Hc.
Qed.

Lemma strip_by_idemp s :
  Py.strip_by p (Py.strip_by p s) = Py.strip_by p s.
Proof.
  unfold Py.strip_by.
  rewrite (lstrip_by_rstrip_by _ (lstrip_by_idemp s)).
  apply rstrip_by_idemp.
Qed.

Lemma strip_by_cons c s :
  p c = true -> Py.strip_by p (String c s) = Py.strip_by p s.
Proof. intros Hc. unfold Py.strip_by. simpl. by rewrite Hc. Qed.

Lemma strip_by_kept_head c s :
  p c = false -> Py.strip_by p (String c s) <> EmptyString.
Proof. intros Hc. unfold Py.strip_by. simpl. by rewrite Hc; simpl; rewrite Hc. Qed.

End StripTwice.

Lemma lower_char_dot c : Py.lower_char c = "."%char <-> c = "."%char.
Proof.
  split; [|by intros ->].
  destruct c as [[] [] [] [] [] [] [] []]; vm_compute; congruence.
Qed.

Lemma lower_char_slash c : Py.lower_char c = "/"%char <-> c = "/"%char.
Proof.
  split; [|by intros ->].
  destruct c as [[] [] [] [] [] [] [] []]; vm_compute; congruence.
Qed.

Lemma in_chars_lower (d : ascii) c :
  (forall c', Py.lower_char c' = d <-> c' = d) ->
  bool_decide (Py.lower_char c ∈ [d]) = bool_decide (c ∈ [d]).
Proof.
  intros Hd. apply bool_decide_ext.
  rewrite !list_elem_of_singleton. apply Hd.
Qed.

Lemma strip_chars_dot_lower s :
  Py.strip_chars ["."%char] (Py.lower s)
  = Py.lower (Py.strip_chars ["."%char] s).
Proof.
  apply strip_by_lower. intros c. apply in_chars_lower, lower_char_dot.
Qed.

Lemma strip_chars_slash_lower s :
  Py.strip_chars ["/"%char] (Py.lower s)
  = Py.lower (Py.strip_chars ["/"%char] s).
Proof.
  apply strip_by_lower. intros c. apply in_chars_lower, lower_char_slash.
Qed.

Lemma strip_lower s : Py.strip (Py.lower s) = Py.lower (Py.strip s).
Proof. apply strip_by_lower, isspace_lower_char. Qed.

(** ** More on normalization *)

Lemma dot_app s : "." +:+ s = String "."%char s.
Proof. reflexivity. Qed.

(** A normalized extension is normalized to itself. *)
Lemma normalize_extension_fixed e :
  Py.strip e <> EmptyString ->
  normalize_extension (normalize_extension e) = normalize_extension e.
Proof.
  intros He. rewrite (normalize_extension_kept e He).
  rewrite normalize_extension_kept.
  - rewrite !dot_app. f_equal.
    unfold Py.strip_chars at 1. rewrite strip_by_cons by done.
    fold (Py.strip_chars ["."%char]
            (Py.lower (Py.strip_chars ["."%char] e))).
    rewrite strip_chars_dot_lower. unfold Py.strip_chars.
    by rewrite strip_by_idemp, lower_idemp.
  - rewrite dot_app. by apply strip_by_kept_head.
Qed.

(** X8. Normalizing the elements of a normalized extension set gives the
    same set. *)
Theorem normalize_extensions_idempotent (extensions : option (list string)) :
  _normalize_extensions
    (Some (elements (_normalize_extensions extensions)))
  = _normalize_extensions extensions.
Proof.
  apply set_eq. intros x. rewrite elem_of_normalize_extensions. split.
  - intros (e & He & Hs & ->). apply elem_of_elements in He.
    destruct extensions as [es|]; [|set_solver].
    pose proof He as (e0 & He0 & Hs0 & ->)%elem_of_normalize_extensions.
    rewrite <- (normalize_extension_kept _ Hs),
      <- (normalize_extension_kept _ Hs0), normalize_extension_fixed by done.
    by rewrite (normalize_extension_kept _ Hs0).
  - intros Hx. exists x. split; [by apply elem_of_elements|].
    destruct extensions as [es|]; [|set_solver].
    pose proof Hx as (e0 & He0 & Hs0 & ->)%elem_of_normalize_extensions.
    split; [rewrite dot_app; by apply strip_by_kept_head|].
    rewrite <- (normalize_extension_kept _ Hs0).
    rewrite <- normalize_extension_kept.
    + by rewrite normalize_extension_fixed.
    + rewrite (normalize_extension_kept _ Hs0), dot_app.
      by apply strip_by_kept_head.
Qed.

Lemma elem_of_normalize_patterns patterns x :
  x ∈ _normalize_patterns (Some patterns) <->
  exists p, p ∈ patterns /\ Py.strip p <> EmptyString
            /\ x = Py.strip_chars ["/"%char] (Py.lower p).
Proof.
  assert (x ∈ (list_to_set
                 ((fun p => Py.strip_chars ["/"%char] (Py.lower p))
                    <$> List.filter (fun p => Py.truthy (Py.strip p)) patterns)
               : gset string)
          <-> exists p, p ∈ patterns /\ Py.strip p <> EmptyString
                /\ x = Py.strip_chars ["/"%char] (Py.lower p)) as H.
  { rewrite elem_of_list_to_set, list_elem_of_fmap. split.
    - intros (p & -> & [Hp Ht]%list_elem_of_In%filter_In).
      exists p. split; [by apply list_elem_of_In|]. split; [|done].
      unfold Py.truthy in Ht. by destruct (Py.strip p).
    - intros (p & Hp & Hs & ->). exists p. split; [done|].
      apply list_elem_of_In, filter_In. split; [by apply list_elem_of_In|].
      unfold Py.truthy. by destruct (Py.strip p). }
  destruct patterns as [|p ps]; [|exact H].
  simpl. split; [set_solver|]. intros (p & Hp & _). by apply elem_of_nil in Hp.
Qed.

(** X9. A directory is pruned when the caller listed a non-blank pattern
    that equals its name up to case and to slashes around the pattern. *)
Theorem caller_pattern_prunes_any_case
    (exclude_files_cli : list string) (pattern dirname : string) :
  pattern ∈ exclude_files_cli ->
  Py.strip pattern <> EmptyString ->
  Py.lower (Py.strip_chars ["/"%char] pattern) = Py.lower dirname ->
  _should_prune_dir dirname (current_excluded_patterns (Some exclude_files_cli))
  = true.
Proof.
  intros Hin Hs Heq. unfold _should_prune_dir, current_excluded_patterns.
  apply bool_decide_eq_true_2, elem_of_union. right.
  apply elem_of_normalize_patterns. exists pattern.
  split; [done|]. split; [done|]. by rewrite strip_chars_slash_lower.
Qed.

Lemma caller_pattern_prunes_any_case_witness :
  _should_prune_dir "BUILD_out" (current_excluded_patterns (Some ["/Build_Out/"]))
  = true.
Proof.
  apply (caller_pattern_prunes_any_case ["/Build_Out/"] "/Build_Out/"
           "BUILD_out"); [constructor| |reflexivity].
  vm_compute. discriminate.
Defined.

Lemma is_excluded_false p exts pats :
  is_excluded p exts pats = false ->
  (Py.lower (path_suffix p) ∉ exts) /\ (Py.lower (path_name p) ∉ pats).
Proof.
  unfold is_excluded.
  destruct (bool_decide (_ ∈ exts)) eqn:He; [done|].
  destruct (bool_decide (_ ∈ pats)) eqn:Hp; [done|].
  apply bool_decide_eq_false in He, Hp. done.
Qed.

Lemma default_relevant_nonempty : DEFAULT_RELEVANT_EXTENSIONS <> ∅.
Proof.
  intros H. assert (".py" ∈ DEFAULT_RELEVANT_EXTENSIONS) as Hin.
  { apply elem_of_list_to_set. constructor. }
  rewrite H in Hin. by apply not_elem_of_empty in Hin.
Qed.

Lemma is_relevant_true cli cur p :
  cur <> ∅ ->
  is_relevant cli cur p = true ->
  Py.lower (path_suffix p) ∈ cur \/ Py.lower (path_name p) ∈ cur.
Proof.
  intros Hne. unfold is_relevant.
  rewrite (bool_decide_eq_true_2 (cur ≠ ∅)) by done.
  destruct (bool_decide (cli ≠ ∅));
    intros [H|H]%orb_true_iff; apply bool_decide_eq_true_1 in H; auto.
Qed.

Lemma accepts_true inc exc pats p :
  accepts inc exc pats p = true ->
  (Py.lower (path_suffix p)
   ∉ DEFAULT_EXCLUDED_EXTENSIONS ∪ _normalize_extensions exc)
  /\ (Py.lower (path_name p) ∉ current_excluded_patterns pats)
  /\ (Py.lower (path_suffix p)
      ∈ (if bool_decide (_normalize_extensions inc ≠ ∅)
         then _normalize_extensions inc
         else DEFAULT_RELEVANT_EXTENSIONS)
      \/ Py.lower (path_name p)
         ∈ (if bool_decide (_normalize_extensions inc ≠ ∅)
            then _normalize_extensions inc
            else DEFAULT_RELEVANT_EXTENSIONS)).
Proof.
  intros Hacc.
  unfold accepts in Hacc. apply andb_true_iff in Hacc as [Hex Hrel].
  apply negb_true_iff, is_excluded_false in Hex as [Hs Hn].
  split; [done|]. split; [done|].
  apply is_relevant_true in Hrel; [done|].
  case_bool_decide; [done|apply default_relevant_nonempty].
Qed.

(** X10. Exclusion wins over inclusion: whatever the include list, a
    discovered file has neither an excluded suffix nor an excluded name,
    and its suffix or its name is in the include set in force (the
    caller's when it is not empty, the default otherwise). *)
Theorem exclusion_wins_over_inclusion
    (root : tree)
    (include_ext_cli exclude_ext_cli exclude_files_cli : option (list string))
    (p : Path) :
  p ∈ discover_code_files root include_ext_cli exclude_ext_cli
        exclude_files_cli ->
  (Py.lower (path_suffix p)
   ∉ DEFAULT_EXCLUDED_EXTENSIONS ∪ _normalize_extensions exclude_ext_cli)
  /\ (Py.lower (path_name p) ∉ current_excluded_patterns exclude_files_cli)
  /\ (Py.lower (path_suffix p)
      ∈ (if bool_decide (_normalize_extensions include_ext_cli ≠ ∅)
         then _normalize_extensions include_ext_cli
         else DEFAULT_RELEVANT_EXTENSIONS)
      \/ Py.lower (path_name p)
         ∈ (if bool_decide (_normalize_extensions include_ext_cli ≠ ∅)
            then _normalize_extensions include_ext_cli
            else DEFAULT_RELEVANT_EXTENSIONS)).
Proof. intros [_ Hacc]%elem_of_discover_code_files. by apply accepts_true. Qed.

Lemma exclusion_wins_over_inclusion_witness :
  Py.lower (path_name ["src"; "m.py"]) ∉ current_excluded_patterns None.
Proof.
  destruct (exclusion_wins_over_inclusion sample_tree None None None
              ["src"; "m.py"]) as (_ & Hname & _); [|exact Hname].
  apply list_elem_of_In. vm_compute. auto.
Defined.




(** ** More on the InteractiveSelector *)

Lemma user_input_fixed text :
  Py.lower (Py.strip (Py.lower (Py.strip text))) = Py.lower (Py.strip text).
Proof.
  rewrite strip_lower, lower_idemp. unfold Py.strip.
  by rewrite strip_by_idemp.
Qed.

(** X12. The review loop reads a line without its case and its
    surrounding whitespace: a line and its trimmed lowercase form have the
    same effect in every session. *)
Theorem review_turn_reads_trimmed_lowercase
    (initial : list Path) (st : session) (text : string) :
  review_turn initial st (Line text)
  = review_turn initial st (Line (Py.lower (Py.strip text))).
Proof. unfold review_turn. cbv zeta. by rewrite !user_input_fixed. Qed.

Lemma set_selected_id b f : id (set_selected b f) = id f.
Proof. done. Qed.

Lemma toggle_ids_twice ids (fs : list f_info) :
  (toggle_ids ids (toggle_ids ids fs).1.1).1.1 = fs.
Proof.
  induction fs as [|f fs IH]; simpl; [done|].
  destruct (toggle_ids ids fs) as [[fs' out] valid] eqn:Hfs. simpl in IH.
  case_bool_decide as Hid; simpl.
  - destruct (toggle_ids ids fs') as [[fs'' out'] valid'] eqn:Hfs'.
    simpl in IH. rewrite bool_decide_eq_true_2 by done. simpl.
    rewrite IH. f_equal. destruct f as [i p r s]. simpl.
    unfold set_selected. simpl. by rewrite negb_involutive.
  - destruct (toggle_ids ids fs') as [[fs'' out'] valid'] eqn:Hfs'.
    simpl in IH. rewrite bool_decide_eq_false_2 by done. simpl.
    by rewrite IH.
Qed.

Lemma with_selectable_back st fs :
  with_selectable (with_selectable st fs) (selectable_files st) = st.
Proof. by destruct st. Qed.

Lemma recognized_keyword_false u :
  recognized_keyword u = false ->
  Py.is_empty u || bool_decide (u = "done") = false
  /\ bool_decide (u = "cancel") = false
  /\ Py.startswith u "exclude " = false
  /\ bool_decide (u = "list") = false
  /\ bool_decide (u = "all") = false
  /\ bool_decide (u = "none") = false.
Proof.
  unfold recognized_keyword. rewrite !orb_false_iff.
  intros ((((((He & Hd) & Hc) & Hx) & Hl) & Ha) & Hn).
  by rewrite He, Hd.
Qed.

Lemma review_turn_numbers initial st text ids :
  recognized_keyword (Py.lower (Py.strip text)) = false ->
  parse_ids (Py.lower (Py.strip text)) = Some ids ->
  exists out,
    review_turn initial st (Line text)
    = Continue
        (with_selectable st (toggle_ids ids (selectable_files st)).1.1) out.
Proof.
  intros (He & Hc & Hx & Hl & Ha & Hn)%recognized_keyword_false Hids.
  unfold review_turn. cbv zeta. rewrite He, Hc, Hx, Hl, Ha, Hn, Hids.
  destruct (toggle_ids ids (selectable_files st)) as [[fs out] valid].
  simpl. eauto.
Qed.

(** X13. A line of numbers given twice restores the session: the second
    turn flips back every flag the first one flipped. *)
Theorem toggle_twice_restores_selection
    (initial : list Path) (st : session) (text : string) (ids : gset Z) :
  recognized_keyword (Py.lower (Py.strip text)) = false ->
  parse_ids (Py.lower (Py.strip text)) = Some ids ->
  exists st1 out1 out2,
    review_turn initial st (Line text) = Continue st1 out1
    /\ review_turn initial st1 (Line text) = Continue st out2.
Proof.
  intros Hk Hids.
  destruct (review_turn_numbers initial st text ids Hk Hids) as [out1 H1].
  destruct (review_turn_numbers initial
              (with_selectable st (toggle_ids ids (selectable_files st)).1.1)
              text ids Hk Hids) as [out2 H2].
  eexists _, out1, out2. split; [exact H1|]. rewrite H2. f_equal.
  simpl. rewrite toggle_ids_twice. by destruct st.
Qed.

Lemma toggle_twice_restores_selection_witness :
  exists st1 out1 out2,
    review_turn sample_files (rebuilt sample_files ∅) (Line "1 3")
    = Continue st1 out1
    /\ review_turn sample_files st1 (Line "1 3")
       = Continue (rebuilt sample_files ∅) out2.
Proof.
  apply (toggle_twice_restores_selection sample_files
           (rebuilt sample_files ∅) "1 3" (list_to_set [1; 3]));
    vm_compute; reflexivity.
Defined.

Lemma review_turn_done initial st text :
  Py.lower (Py.strip text) = EmptyString \/ Py.lower (Py.strip text) = "done" ->
  review_turn initial st (Line text) = Break st.
Proof.
  intros H. unfold review_turn. cbv zeta.
  by destruct H as [-> | ->].
Qed.

Lemma review_turn_none initial st text :
  Py.lower (Py.strip text) = "none" ->
  exists out,
    review_turn initial st (Line text)
    = Continue
        (with_selectable st (set_selected false <$> selectable_files st)) out.
Proof. intros H. unfold review_turn. cbv zeta. rewrite H. eauto. Qed.

Lemma review_turn_all initial st text :
  Py.lower (Py.strip text) = "all" ->
  exists out,
    review_turn initial st (Line text)
    = Continue
        (with_selectable st (set_selected true <$> selectable_files st)) out.
Proof. intros H. unfold review_turn. cbv zeta. rewrite H. eauto. Qed.

Lemma filter_selected_none (fs : list f_info) :
  List.filter selected (set_selected false <$> fs) = [].
Proof. induction fs as [|f fs IH]; simpl; done. Qed.

Lemma filter_selected_all (fs : list f_info) :
  path_obj <$> List.filter selected (set_selected true <$> fs)
  = path_obj <$> fs.
Proof. induction fs as [|f fs IH]; simpl; [done|]. f_equal. exact IH. Qed.

(** X14. In every session, [none] followed by [done] (or an empty line)
    confirms no file, and [all] followed by [done] confirms every file
    listed, whatever was selected before. *)
Theorem select_none_or_all_then_confirm
    (initial : list Path) (st : session) (out : list output)
    (t1 t2 : string) (rest : list user_action) :
  Py.lower (Py.strip t2) = EmptyString \/ Py.lower (Py.strip t2) = "done" ->
  (Py.lower (Py.strip t1) = "none" ->
   review_loop initial st out (Line t1 :: Line t2 :: rest) = Confirmed [])
  /\ (Py.lower (Py.strip t1) = "all" ->
      review_loop initial st out (Line t1 :: Line t2 :: rest)
      = Confirmed (path_obj <$> selectable_files st)).
Proof.
  intros Hdone. split; intros H1.
  - destruct (review_turn_none initial st t1 H1) as [o Ht].
    cbn [review_loop]. rewrite Ht, review_turn_done by done.
    unfold final_selected_files. simpl. by rewrite filter_selected_none.
  - destruct (review_turn_all initial st t1 H1) as [o Ht].
    cbn [review_loop]. rewrite Ht, review_turn_done by done.
    unfold final_selected_files. simpl. by rewrite filter_selected_all.
Qed.

Lemma select_none_or_all_then_confirm_witness :
  review_loop sample_files (rebuilt sample_files ∅) [] [Line " NONE "; Line ""]
  = Confirmed [].
Proof.
  destruct (select_none_or_all_then_confirm sample_files
              (rebuilt sample_files ∅) [] " NONE " "" [])
    as [Hnone _]; [by left|].
  apply Hnone. reflexivity.
Defined.

Lemma filter_all {A} (f : A -> bool) l :
  Forall (fun x => f x = true) l -> List.filter f l = l.
Proof. induction 1 as [|x l Hx _ IH]; simpl; [done|]. by rewrite Hx, IH. Qed.

Lemma filter_sublist {A} (f : A -> bool) l : sublist (List.filter f l) l.
Proof.
  induction l as [|x l IH]; simpl; [constructor|].
  destruct (f x); by constructor.
Qed.

Lemma displayed_nothing_excluded initial : displayed initial ∅ = initial.
Proof.
  unfold displayed. apply filter_all, Forall_forall. intros p _.
  apply bool_decide_eq_true_2. set_solver.
Qed.

Lemma fresh_entries_selected l :
  Forall (fun f => selected f = true) (imap fresh_entry l).
Proof.
  apply Forall_lookup. intros k f Hk.
  by apply fresh_entries_lookup in Hk as (_ & ? & _).
Qed.

Lemma final_selected_rebuilt initial excl :
  final_selected_files (rebuilt initial excl) = displayed initial excl.
Proof.
  unfold final_selected_files. simpl.
  rewrite filter_all by apply fresh_entries_selected.
  apply fresh_entries_paths.
Qed.

(** X15. Confirming at the first prompt, by [done] or an empty line, keeps
    every discovered file, in order. *)
Theorem confirm_at_once_keeps_all
    (initial : list Path) (text : string) (rest : list user_action) :
  Py.lower (Py.strip text) = EmptyString \/ Py.lower (Py.strip text) = "done" ->
  review_and_filter_files_interactive initial (Line text :: rest)
  = Confirmed initial.
Proof.
  intros Hdone. unfold review_and_filter_files_interactive.
  destruct initial as [|p0 initial]; [done|].
  destruct (initial_session_rebuilt (p0 :: initial)) as [o ->].
  destruct (selectable_files (rebuilt (p0 :: initial) ∅)) eqn:Hsel.
  { exfalso. apply (f_equal length) in Hsel. simpl in Hsel.
    rewrite length_imap, displayed_nothing_excluded in Hsel. done. }
  cbn [review_loop]. rewrite review_turn_done by done.
  by rewrite final_selected_rebuilt, displayed_nothing_excluded.
Qed.

Lemma confirm_at_once_keeps_all_witness :
  review_and_filter_files_interactive sample_files [Line "Done"]
  = Confirmed sample_files.
Proof. apply confirm_at_once_keeps_all. by right. Defined.

(** A turn that ends the loop leaves the session as it is. *)
Lemma review_turn_break initial st a st' :
  review_turn initial st a = Break st' -> st' = st.
Proof.
  destruct a as [text|]; [|done].
  destruct (Py.startswith (Py.lower (Py.strip text)) "exclude ") eqn:Hex.
  - by destruct (review_turn_exclude initial st text Hex)
      as [[_ ->]|[_ [o ->]]].
  - unfold review_turn. cbv zeta. rewrite Hex.
    destruct (_ || _); [by intros [= <-]|].
    repeat (case_bool_decide; [done|]).
    destruct (parse_ids _); [|done].
    by destruct (toggle_ids _ _) as [[fs o] valid].
Qed.

Lemma review_loop_confirmed initial actions st out fs :
  session_ok initial st ->
  review_loop initial st out actions = Confirmed fs ->
  exists st', session_ok initial st' /\ fs = final_selected_files st'.
Proof.
  revert st out. induction actions as [|a actions IH]; intros st out Hok; simpl; [done|].
  destruct (review_turn initial st a) as [st1 out1|st1|] eqn:Ht; [| |done].
  - apply IH. by eapply review_turn_ok.
  - intros [= <-]. apply review_turn_break in Ht as ->. eauto.
Qed.

Lemma confirmed_sublist initial actions fs :
  review_and_filter_files_interactive initial actions = Confirmed fs ->
  exists excl, sublist fs (displayed initial excl).
Proof.
  unfold review_and_filter_files_interactive.
  destruct initial as [|p0 initial].
  { intros [= <-]. exists ∅. constructor. }
  destruct (initial_session_rebuilt (p0 :: initial)) as [o ->].
  destruct (selectable_files _).
  { intros [= <-]. exists ∅. apply sublist_nil_l. }
  intros H. apply review_loop_confirmed in H as (st' & (_ & Hp & _) & ->).
  - exists (current_interactive_exclusions st'). rewrite <- Hp.
    unfold final_selected_files. apply fmap_sublist, filter_sublist.
  - apply session_ok_rebuilt. set_solver.
Qed.

(** X16. The review only narrows: the files a review confirms are a
    sublist of the discovered files, in the same order. *)
Theorem confirmed_files_are_discovered_files
    (initial : list Path) (actions : list user_action) (fs : list Path) :
  review_and_filter_files_interactive initial actions = Confirmed fs ->
  sublist fs initial.
Proof.
  intros [excl H]%confirmed_sublist. etrans; [exact H|].
  apply filter_sublist.
Qed.

Lemma confirmed_files_are_discovered_files_witness :
  sublist [["a.py"]; ["Dockerfile"]] sample_files.
Proof.
  apply (confirmed_files_are_discovered_files sample_files
           [Line "2"; Line "done"]).
  vm_compute. reflexivity.
Defined.

(** The exclusions and the output along a loop. *)
Lemma review_loop_grows initial actions st out st' out' :
  review_loop initial st out actions = Reviewing st' out' ->
  current_interactive_exclusions st ⊆ current_interactive_exclusions st'
  /\ out `prefix_of` out'.
Proof.
  revert st out. induction actions as [|a actions IH]; intros st out; simpl.
  - by intros [= <- <-].
  - destruct (review_turn initial st a) as [st1 out1| |] eqn:Ht; [|done|done].
    intros [Hsub Hpre]%IH. split.
    + destruct (review_turn_continue _ _ _ _ _ Ht)
        as [(He & _)|(text & _ & _ & ->)]; [by rewrite <- He|].
      etrans; [|exact Hsub]. simpl. set_solver.
    + etrans; [|exact Hpre]. by apply prefix_app_r.
Qed.

(** X17. Along a review the exclusion set only grows and what was printed
    stays printed. *)
Theorem exclusions_only_grow
    (initial : list Path) (actions : list user_action)
    (st st' : session) (out out' : list output) :
  review_loop initial st out actions = Reviewing st' out' ->
  current_interactive_exclusions st ⊆ current_interactive_exclusions st'
  /\ out `prefix_of` out'.
Proof. apply review_loop_grows. Qed.

Lemma exclusions_only_grow_witness :
  current_interactive_exclusions (rebuilt sample_files ∅)
  ⊆ current_interactive_exclusions (rebuilt sample_files {[ ".py" ]}).
Proof.
  destruct (exclusions_only_grow sample_files [Line "exclude .py"]
              (rebuilt sample_files ∅) (rebuilt sample_files {[ ".py" ]})
              []
              [OutAdded {[ ".py" ]};
               OutUpdatedList ["src/b.js"; "Dockerfile"]])
    as [H _]; [|exact H].
  vm_compute. reflexivity.
Defined.

Lemma review_turn_ids initial st a st' out :
  ids_in_order st ->
  review_turn initial st a = Continue st' out ->
  ids_in_order st'.
Proof.
  intros Hids Ht.
  destruct (review_turn_continue _ _ _ _ _ Ht)
    as [(_ & _ & Hid & _)|(text & _ & _ & ->)].
  - intros k f Hk.
    assert ((id <$> selectable_files st) !! k = Some (id f)) as Hk'.
    { rewrite <- Hid, list_lookup_fmap, Hk. done. }
    rewrite list_lookup_fmap in Hk'.
    destruct (selectable_files st !! k) as [g|] eqn:Hg; [|done].
    injection Hk' as <-. by apply Hids.
  - intros k f Hk. by apply fresh_entries_lookup in Hk as (? & _).
Qed.

Lemma review_loop_ids initial actions st out st' out' :
  ids_in_order st ->
  review_loop initial st out actions = Reviewing st' out' ->
  ids_in_order st'.
Proof.
  revert st out. induction actions as [|a actions IH]; intros st out Hids; simpl.
  - by intros [= <- _].
  - destruct (review_turn initial st a) as [st1 out1| |] eqn:Ht; [|done|done].
    apply IH. by eapply review_turn_ids.
Qed.

(** X18. At every prompt of a review the ids of the entries listed are
    their positions, counted from 1. *)
Theorem ids_number_the_list_at_every_prompt
    (initial : list Path) (actions : list user_action)
    (st : session) (out : list output) (k : nat) (f : f_info) :
  review_and_filter_files_interactive initial actions = Reviewing st out ->
  selectable_files st !! k = Some f ->
  id f = Z.of_nat k + 1.
Proof.
  unfold review_and_filter_files_interactive.
  destruct initial as [|p0 initial]; [done|].
  destruct (initial_session_rebuilt (p0 :: initial)) as [o ->].
  destruct (selectable_files _) eqn:Hsel; [done|]. intros Hrun.
  eapply review_loop_ids; [|exact Hrun].
  intros j g Hj. by apply fresh_entries_lookup in Hj as (? & _).
Qed.

Lemma ids_number_the_list_at_every_prompt_witness :
  id (fresh_entry 1 ["Dockerfile"]) = Z.of_nat 1 + 1.
Proof.
  apply (ids_number_the_list_at_every_prompt sample_files
           [Line "exclude .py"] (rebuilt sample_files {[ ".py" ]})
           [OutUpdatedList ["a.py"; "src/b.js"; "Dockerfile"];
            OutAdded {[ ".py" ]};
            OutUpdatedList ["src/b.js"; "Dockerfile"]]
           1 (fresh_entry 1 ["Dockerfile"]));
    vm_compute; reflexivity.
Defined.

(** ** More on the analysis call and the report *)

Lemma contains_error_prefix s :
  Py.contains error_marker ("Error: " +:+ s) = true.
Proof.
  apply contains_prefix.
  change ("Error: " +:+ s) with (error_marker +:+ " " +:+ s).
  apply prefix_self_app.
Qed.

Lemma actionable_error f :
  Py.contains error_marker f = true -> actionable f = false.
Proof. unfold actionable. by intros ->. Qed.




Lemma call_failure_markers r :
  Py.contains error_marker ("Error during LLM API call for " +:+ r)
  = Py.contains error_marker r
  /\ Py.contains no_vulns_marker ("Error during LLM API call for " +:+ r)
     = Py.contains no_vulns_marker r.
Proof. split; vm_compute; reflexivity. Qed.

(** X20. When the call raises, the result starts with [Error during],
    which is not the error marker: whether the report takes it for an
    analysis issue or for an actionable finding depends only on the display
    path and the text of the exception. *)
Theorem call_failure_classified_by_its_text
    (generate_content : string -> string -> generation)
    (filepath_display code_content_chunk model_name system_prompt e : string) :
  generate_content model_name
    (full_prompt system_prompt filepath_display code_content_chunk)
  = Raised e ->
  Py.contains error_marker
    (analyze_code_with_llm generate_content filepath_display
       code_content_chunk model_name system_prompt)
  = Py.contains error_marker (filepath_display +:+ ": " +:+ e)
  /\ actionable
       (analyze_code_with_llm generate_content filepath_display
          code_content_chunk model_name system_prompt)
     = actionable (filepath_display +:+ ": " +:+ e).
Proof.
  intros H. unfold analyze_code_with_llm. rewrite H.
  destruct (call_failure_markers (filepath_display +:+ ": " +:+ e)) as [He Hn].
  split; [exact He|]. unfold actionable. by rewrite He, Hn.
Qed.

Lemma call_failure_classified_by_its_text_witness :
  actionable
    (analyze_code_with_llm (fun _ _ => Raised "timeout")
       "a.py" "x = 1" "m" "p") = true.
Proof.
  destruct (call_failure_classified_by_its_text
              (fun _ _ => Raised "timeout") "a.py" "x = 1" "m" "p" "timeout")
    as [_ H]; [reflexivity|].
  rewrite H. reflexivity.
Defined.

Lemma prefix_app_l p s r :
  String.prefix p s = true -> String.prefix p (s +:+ r) = true.
Proof.
  intros [r0 ->]%prefix_app. rewrite str_app_assoc. apply prefix_self_app.
Qed.

Lemma contains_app_l sub s1 s2 :
  Py.contains sub s1 = true -> Py.contains sub (s1 +:+ s2) = true.
Proof.
  induction s1 as [|c s1 IH].
  - simpl. rewrite orb_false_r. intros H. apply contains_prefix.
    by apply (prefix_app_l sub EmptyString s2).
  - rewrite app_cons. simpl.
    intros [H|H]%orb_true_iff; apply orb_true_iff; [left|right; by apply IH].
    by apply (prefix_app_l sub (String c s1) s2).
Qed.

Lemma contains_join_snoc sub parts s :
  Py.contains sub (Py.join parts) = true \/ Py.contains sub s = true ->
  Py.contains sub (Py.join (parts ++ [s])) = true.
Proof.
  rewrite join_snoc. intros [H|H]; [by apply contains_app_l|by apply contains_app_r].
Qed.

Lemma contains_join_snoc2 sub parts s1 s2 :
  Py.contains sub (Py.join parts) = true \/ Py.contains sub s2 = true ->
  Py.contains sub (Py.join (parts ++ [s1; s2])) = true.
Proof.
  change (parts ++ [s1; s2]) with (parts ++ [s1] ++ [s2]).
  rewrite app_assoc. intros [H|H]; apply contains_join_snoc; [left|by right].
  apply contains_join_snoc. by left.
Qed.

(** Finds [f] in a text built by appending around it. *)
Ltac find_inside :=
  repeat first
    [ apply contains_prefix; apply prefix_self_app
    | apply contains_app_r ].

Lemma report_finding_keeps f acc g :
  holds f acc -> holds f (report_finding acc g).
Proof.
  intros [Hmd Htxt]. unfold report_finding.
  destruct (negb _ && negb _); [|destruct (Py.contains error_marker g)];
    [| |done]; split; cbn [md_content_parts txt_content_parts].
  - by apply contains_join_snoc2, or_introl.
  - by apply contains_join_snoc, or_introl.
  - by apply contains_join_snoc2, or_introl.
  - by apply contains_join_snoc, or_introl.
Qed.

Lemma report_finding_renders f acc :
  actionable f = true \/ Py.contains error_marker f = true ->
  holds f (report_finding acc f).
Proof.
  intros H. unfold report_finding. fold (actionable f).
  destruct (actionable f) eqn:Ha.
  - split; cbn [md_content_parts txt_content_parts].
    + apply contains_join_snoc2. right.
      find_inside.
    + apply contains_join_snoc. right. find_inside.
  - destruct H as [?|He]; [done|]. rewrite He.
    split; cbn [md_content_parts txt_content_parts].
    + apply contains_join_snoc2. right.
      find_inside.
    + apply contains_join_snoc. right. find_inside.
Qed.

Lemma fold_report_keeps f findings acc :
  holds f acc -> holds f (fold_left report_finding findings acc).
Proof.
  revert acc. induction findings as [|g findings IH]; intros acc H; [done|].
  simpl. by apply IH, report_finding_keeps.
Qed.

Lemma fold_report_renders f findings acc :
  f ∈ findings ->
  actionable f = true \/ Py.contains error_marker f = true ->
  holds f (fold_left report_finding findings acc).
Proof.
  intros Hin Hf. revert acc.
  induction findings as [|g findings IH]; intros acc;
    [by apply elem_of_nil in Hin|].
  simpl. apply elem_of_cons in Hin as [<-|Hin].
  - by apply fold_report_keeps, report_finding_renders.
  - by apply IH.
Qed.

Lemma append_msg_keeps f msg acc : holds f acc -> holds f (append_msg msg acc).
Proof.
  intros [Hmd Htxt]. split; cbn [append_msg md_content_parts txt_content_parts];
    by apply contains_join_snoc, or_introl.
Qed.

Lemma generate_report_renders report_title findings f :
  f ∈ findings ->
  actionable f = true \/ Py.contains error_marker f = true ->
  Py.contains f (generate_report report_title findings).1 = true
  /\ Py.contains f (generate_report report_title findings).2 = true.
Proof.
  intros Hin Hf. unfold generate_report.
  destruct findings as [|g findings]; [by apply elem_of_nil in Hin|].
  pose proof (fold_report_renders f (g :: findings)
                (report_head report_title) Hin Hf) as H.
  destruct (_ && _); [by apply append_msg_keeps|exact H].
Qed.

(** X21. Every finding that is actionable or carries the error marker
    occurs, as it is, in both reports. *)
Theorem rendered_findings_occur_in_both_reports
    (report_title : string) (findings : list string) (f : string) :
  f ∈ findings ->
  actionable f = true \/ Py.contains error_marker f = true ->
  Py.contains f (generate_report report_title findings).1 = true
  /\ Py.contains f (generate_report report_title findings).2 = true.
Proof. apply generate_report_renders. Qed.

Lemma rendered_findings_occur_in_both_reports_witness :
  Py.contains "SQL injection in login()"
    (generate_report "T" ["Error: boom"; "SQL injection in login()"]).1
  = true
  /\ Py.contains "SQL injection in login()"
       (generate_report "T" ["Error: boom"; "SQL injection in login()"]).2
     = true.
Proof.
  apply rendered_findings_occur_in_both_reports.
  - apply list_elem_of_In. simpl. auto.
  - left. reflexivity.
Defined.

Lemma report_finding_no_finding acc f :
  Py.contains error_marker f = false ->
  Py.contains no_vulns_marker f = true ->
  report_finding acc f = acc.
Proof. intros He Hn. unfold report_finding. by rewrite He, Hn. Qed.

Lemma fold_report_no_findings findings acc :
  Forall (fun f => Py.contains error_marker f = false
                   /\ Py.contains no_vulns_marker f = true) findings ->
  fold_left report_finding findings acc = acc.
Proof.
  induction 1 as [|f findings [He Hn] _ IH]; simpl; [done|].
  by rewrite report_finding_no_finding.
Qed.

(** X22. Findings that carry the no-vulnerabilities marker and not the
    error marker are not rendered: a non-empty list of such findings gives
    the head of the report followed by the one statement that nothing
    critical was found. *)
Theorem clean_findings_leave_only_the_statement
    (report_title : string) (findings : list string) :
  findings <> [] ->
  Forall (fun f => Py.contains error_marker f = false
                   /\ Py.contains no_vulns_marker f = true) findings ->
  generate_report report_title findings
  = (Py.join (md_content_parts (report_head report_title)
              ++ [reviewed_nothing_critical_msg]),
     Py.join (txt_content_parts (report_head report_title)
              ++ [reviewed_nothing_critical_msg])).
Proof.
  intros Hne Hall. unfold generate_report.
  destruct findings as [|f findings]; [done|].
  rewrite fold_report_no_findings by done.
  assert (some_finding_without_error (f :: findings) = true) as ->; [|done].
  apply some_finding_without_error_spec. exists f.
  apply Forall_cons in Hall as [[He Hn] _].
  split; [by left|]. split; [|done]. intros ->. vm_compute in Hn. discriminate.
Qed.

Lemma clean_findings_leave_only_the_statement_witness :
  generate_report "T"
    ["No critical security vulnerabilities identified in this snippet."]
  = (Py.join (md_content_parts (report_head "T")
              ++ [reviewed_nothing_critical_msg]),
     Py.join (txt_content_parts (report_head "T")
              ++ [reviewed_nothing_critical_msg])).
Proof.
  apply clean_findings_leave_only_the_statement; [discriminate|].
  repeat constructor.
Defined.

(** ** The scan and the report together *)

Section ReadErrors.
Variable analyze : nat -> string -> string -> string.
Variables cs max : Z.

Lemma scan_chunks_findings_grow nf i rel n k chunks st f :
  f ∈ all_llm_findings st ->
  f ∈ all_llm_findings (scan_chunks analyze max nf i rel n k chunks st).
Proof.
  revert k st. induction chunks as [|c chunks IH]; intros k st Hf; simpl; [done|].
  destruct (is_blank c); [by apply IH|].
  destruct (would_exceed _ _ _); [done|].
  assert (f ∈ all_llm_findings (send_chunk analyze rel k n c st)) as Hs.
  { unfold send_chunk. cbn [all_llm_findings].
    destruct (Py.truthy _); [apply elem_of_app; by left|done]. }
  destruct (limit_reached _ _); [by case_bool_decide|by apply IH].
Qed.

Lemma scan_files_findings_grow nf i files st f :
  max <= 0 ->
  f ∈ all_llm_findings st ->
  f ∈ all_llm_findings (scan_files analyze cs max nf i files st).
Proof.
  intros Hm. revert i st.
  induction files as [|[p r] files IH]; intros i st Hf; simpl; [done|].
  destruct r as [content|reason].
  - destruct (is_blank content); [by apply IH|].
    rewrite would_exceed_unlimited, limit_reached_unlimited by done.
    by apply IH, scan_chunks_findings_grow.
  - apply IH. cbn [all_llm_findings]. apply elem_of_app. by left.
Qed.

Lemma scan_files_read_errors nf i files st p reason :
  max <= 0 ->
  (p, ReadFailed reason) ∈ files ->
  read_error_msg p reason
  ∈ all_llm_findings (scan_files analyze cs max nf i files st).
Proof.
  intros Hm Hin. revert i st.
  induction files as [|[p0 r] files IH]; intros i st;
    [by apply elem_of_nil in Hin|].
  apply elem_of_cons in Hin as [[= <- <-]|Hin].
  - simpl. apply scan_files_findings_grow; [done|].
    cbn [all_llm_findings]. apply elem_of_app. right. by left.
  - simpl. destruct r as [content|reason0]; [|by apply IH].
    destruct (is_blank content); [by apply IH|].
    rewrite would_exceed_unlimited, limit_reached_unlimited by done.
    by apply IH.
Qed.

End ReadErrors.

(** X23. With a budget of zero or less, every file that cannot be read
    leaves its message among the findings; the message is never counted as
    actionable and occurs in both reports. *)
Theorem unreadable_files_are_reported
    (analyze : nat -> string -> string -> string) (cs max : Z)
    (files : list (Path * read_result)) (report_title : string)
    (p : Path) (reason : string) :
  max <= 0 ->
  (p, ReadFailed reason) ∈ files ->
  read_error_msg p reason ∈ all_llm_findings (scan analyze cs max files)
  /\ actionable (read_error_msg p reason) = false
  /\ Py.contains (read_error_msg p reason)
       (generate_report report_title
          (all_llm_findings (scan analyze cs max files))).1 = true
  /\ Py.contains (read_error_msg p reason)
       (generate_report report_title
          (all_llm_findings (scan analyze cs max files))).2 = true.
Proof.
  intros Hm Hin.
  assert (read_error_msg p reason
          ∈ all_llm_findings (scan analyze cs max files)) as Hf
    by (by apply scan_files_read_errors).
  assert (Py.contains error_marker (read_error_msg p reason) = true) as He
    by apply (contains_error_prefix
                ("Could not read file " +:+ path_str p +:+ ". Reason: "
                 +:+ reason)).
  split; [done|]. split; [by apply actionable_error|].
  apply generate_report_renders; [done|by right].
Qed.

Lemma unreadable_files_are_reported_witness :
  read_error_msg ["b.py"] "denied"
  ∈ all_llm_findings (scan (fun _ _ _ => "ok") 2 0 sample_reads).
Proof.
  destruct (unreadable_files_are_reported (fun _ _ _ => "ok") 2 0
              sample_reads "T" ["b.py"] "denied") as [H _]; [lia| |exact H].
  apply list_elem_of_In. simpl. auto.
Defined.
